(** * ParticleNetwork: the particle field, its connection graph and the
      per-frame simulation step

    Shallow embedding of [src/components/ParticleNetwork.tsx] (the React
    component).  The embedded functions are [getRandomColor],
    [updateConnections], [animate], the mount effect (particle creation)
    and [handleMouseMove].  The repository holds a second variant of the
    same component; it writes [-vx] for [vx * -1] and [vx * vx] for
    [vx ** 2], clears the canvas instead of filling it with black, builds
    the particle array with a [for] loop and [push], and carries two unused
    fields [life] and [maxLife]; the order of the statements is the same.

    JavaScript numbers are kept abstract behind the class [JsNumber]: the
    code is written once against that interface, and structural results
    hold for every implementation of it.  Two implementations follow: the
    ideal real numbers [R], in which the results that need arithmetic are
    proved, and binary64, the numbers the engine has, in which the
    scenarios are run.  [Math.random] is an infinite sequence of draws
    supplied by the host, read through a counter that is threaded through
    the code.  A frame is a function from the refs of the component to the
    refs it leaves, the operations it sent to the 2D context, and whether
    it raised and whether it asked for the next frame. *)

From Stdlib Require Import List Bool Arith ZArith NArith Lia.
From Stdlib Require Import Reals Lra.
From Stdlib Require Floats.
Import ListNotations.

Set Implicit Arguments.

(** ** Numbers *)

(** The operations on numbers that the component uses.  [num_of_Z] gives the
    integer literals; a decimal literal such as [0.98] is the quotient of two
    integers (see [dec]), which is also how a correctly rounded binary
    format obtains it. *)
Class JsNumber (num : Type) : Type := {
  num_of_Z : Z -> num;
  add : num -> num -> num;
  sub : num -> num -> num;
  mul : num -> num -> num;
  div : num -> num -> num;
  (** [a < b] *)
  ltb : num -> num -> bool;
  (** [v ** 2] *)
  square : num -> num;
  Math_sqrt : num -> num;
  Math_cos : num -> num;
  Math_sin : num -> num;
  (** [Math.atan2(dy, dx)] *)
  Math_atan2 : num -> num -> num;
  (** [Math.floor], read as the integer it denotes *)
  Math_floor : num -> Z
}.

Declare Scope js_scope.
Delimit Scope js_scope with js.
Notation "# z" := (num_of_Z z%Z) (at level 1, format "# z") : js_scope.
Infix "+" := add : js_scope.
Infix "-" := sub : js_scope.
Infix "*" := mul : js_scope.
Infix "/" := div : js_scope.
Infix "<?" := ltb : js_scope.
Notation "a >? b" := (ltb b a) (only parsing) : js_scope.

(** [dec m e] is the decimal literal [m * 10^-e]: [dec 98 2] is [0.98]. *)
Definition dec {num} `{JsNumber num} (m : Z) (e : nat) : num :=
  (#m / #(10 ^ Z.of_nat e))%js.

(** ** Data model *)

Section Model.
Context {num : Type} `{JsNumber num}.
Local Open Scope js_scope.

(** The colour string [hsla(h, s%, l%, 0.8)], kept as its four numbers. *)
Record Color : Type := hsla {
  hue : num;
  saturation : num;
  lightness : num;
  alpha : num
}.

Record Particle : Type := mkParticle {
  x : num;
  y : num;
  vx : num;
  vy : num;
  radius : num;
  color : Color;
  originalX : num;
  originalY : num
}.

Record Connection : Type := mkConnection {
  from : nat;
  to : nat;
  distance : num
}.

(** [mouse.current] *)
Record Mouse : Type := mkMouse {
  mouseX : num;
  mouseY : num;
  moved : bool
}.

(** The canvas element: its integer dimensions and whether
    [getContext('2d')] yields a context. *)
Record Canvas : Type := mkCanvas {
  width : N;
  height : N;
  context2d : bool
}.

(** The refs of the component.  [draws] counts the calls of [Math.random]
    made so far. *)
Record State : Type := mkState {
  canvasRef : option Canvas;
  particles : list Particle;
  connections : list Connection;
  mouse : Mouse;
  draws : nat
}.

Definition set_x (p : Particle) (v : num) : Particle :=
  mkParticle v (y p) (vx p) (vy p) (radius p) (color p) (originalX p) (originalY p).
Definition set_y (p : Particle) (v : num) : Particle :=
  mkParticle (x p) v (vx p) (vy p) (radius p) (color p) (originalX p) (originalY p).
Definition set_vx (p : Particle) (v : num) : Particle :=
  mkParticle (x p) (y p) v (vy p) (radius p) (color p) (originalX p) (originalY p).
Definition set_vy (p : Particle) (v : num) : Particle :=
  mkParticle (x p) (y p) (vx p) v (radius p) (color p) (originalX p) (originalY p).

(** ** updateConnections *)

(** The body of the inner loop for one pair [(i, j)]: the distance of
    [particles[i]] and [particles[j]], pushed when it is below 150. *)
Definition pairDistance (pi pj : Particle) : num :=
  let dx := x pi - x pj in
  let dy := y pi - y pj in
  Math_sqrt (dx * dx + dy * dy).

Definition connectPair (ps : list Particle) (i j : nat) : list Connection :=
  match nth_error ps i, nth_error ps j with
  | Some pi, Some pj =>
      let distance := pairDistance pi pj in
      if distance <? #150 then [mkConnection i j distance] else []
  | _, _ => []
  end.

(** [for (i = 0; i < length; i++) for (j = i + 1; j < length; j++)]: the
    pushes in loop order. *)
Definition updateConnections (ps : list Particle) : list Connection :=
  flat_map
    (fun i => flat_map (connectPair ps i) (seq (i + 1) (length ps - (i + 1))))
    (seq 0 (length ps)).

(** A connection can be drawn on an array of [n] particles when both its
    indices are below [n]. *)
Definition inRange (n : nat) (c : Connection) : Prop :=
  (from c < n)%nat /\ (to c < n)%nat.

(** The all-pairs scan as the specification words it: every unordered pair
    of particles is examined once and kept when its distance is below 150.
    It walks the array itself instead of indexing into it: [scanFrom i pi j
    rest] pairs particle [i] with the particles [rest], which sit at the
    indices [j], [j + 1], ...; [directScan i ps] does so for every particle
    of [ps], which sit at [i], [i + 1], ... *)
Fixpoint scanFrom (i : nat) (pi : Particle) (j : nat) (rest : list Particle)
  : list (nat * nat) :=
  match rest with
  | [] => []
  | pj :: rest' =>
      (if pairDistance pi pj <? #150 then [(i, j)] else [])
        ++ scanFrom i pi (S j) rest'
  end.

Fixpoint directScan (i : nat) (ps : list Particle) : list (nat * nat) :=
  match ps with
  | [] => []
  | p :: rest => scanFrom i p (S i) rest ++ directScan (S i) rest
  end.

(** ** Math.random *)

(** The host's sequence of draws: the [n]-th call of [Math.random] returns
    [entropy n]. *)
Variable entropy : nat -> num.

(** Code that calls [Math.random] threads the number of draws made. *)
Definition Rand (A : Type) : Type := nat -> A * nat.

Definition ret {A : Type} (a : A) : Rand A := fun n => (a, n).

Definition bind {A B : Type} (m : Rand A) (k : A -> Rand B) : Rand B :=
  fun n => let (a, n') := m n in k a n'.

Local Notation "v <- m ;; k" := (bind m (fun v => k))
  (at level 61, m at next level, right associativity).

Definition Math_random : Rand num := fun n => (entropy n, S n).

(** [count] runs of [m], in order: [Array.from({ length: count }).map(...)]
    and the variant's [for] loop with [push]. *)
Fixpoint times {A : Type} (count : nat) (m : Rand A) : Rand (list A) :=
  match count with
  | O => ret []
  | S count' => a <- m ;; rest <- times count' m ;; ret (a :: rest)
  end.

(** ** getRandomColor and the creation of the particles *)

Definition getRandomColor : Rand Color :=
  r <- Math_random ;; let hue := r * #60 + #220 in
  r <- Math_random ;; let saturation := r * #30 + #70 in
  r <- Math_random ;; let lightness := r * #20 + #50 in
  ret (hsla hue saturation lightness (dec 8 1)).

(** The callback of [map]: one particle of a canvas of size [cw] by [ch]. *)
Definition createParticle (cw ch : num) : Rand Particle :=
  r <- Math_random ;; let x := r * cw in
  r <- Math_random ;; let y := r * ch in
  r <- Math_random ;; let vx := (r - dec 5 1) * dec 3 1 in
  r <- Math_random ;; let vy := (r - dec 5 1) * dec 3 1 in
  r <- Math_random ;; let radius := r * dec 25 1 + #1 in
  color <- getRandomColor ;;
  ret (mkParticle x y vx vy radius color x y).

(** [canvas.width] and [canvas.height] as numbers. *)
Definition widthOf (canvas : Canvas) : num := #(Z.of_N (width canvas)).
Definition heightOf (canvas : Canvas) : num := #(Z.of_N (height canvas)).

(** [Math.floor((canvas.width * canvas.height) / 8000)], as a length. *)
Definition particleCount (canvas : Canvas) : nat :=
  Z.to_nat (Math_floor ((widthOf canvas * heightOf canvas) / #8000)).

Definition createParticles (canvas : Canvas) : Rand (list Particle) :=
  times (particleCount canvas) (createParticle (widthOf canvas) (heightOf canvas)).

(** The mount effect up to and including its call of [updateConnections]:
    the canvas takes the window's size, the particles are replaced, the
    connection graph is rebuilt.  Without a canvas the effect returns at
    once. *)
Definition initialize (innerWidth innerHeight : N) (st : State) : State :=
  match canvasRef st with
  | None => st
  | Some canvas =>
      let canvas := mkCanvas innerWidth innerHeight (context2d canvas) in
      let (ps, n) := createParticles canvas (draws st) in
      mkState (Some canvas) ps (updateConnections ps) (mouse st) n
  end.

(** [handleMouseMove] *)
Definition handleMouseMove (clientX clientY : num) (st : State) : State :=
  mkState (canvasRef st) (particles st) (connections st)
          (mkMouse clientX clientY true) (draws st).

(** ** animate *)

(** What a frame sends to the 2D context. *)
Inductive DrawOp : Type :=
| FillRect (left top w h : num)
| Stroke (x1 y1 x2 y2 strokeAlpha : num)
| Disc (cx cy r : num) (fill : Color).

(** The callback of [particles.current.forEach] moves one particle in three
    phases, in this order.  First the position advances by the velocity. *)
Definition advance (particle : Particle) : Particle :=
  let particle := set_x particle (x particle + vx particle) in
  let particle := set_y particle (y particle + vy particle) in
  particle.

(** Then a velocity component is negated when the advanced coordinate is
    outside the canvas. *)
Definition reflect (cw ch : num) (particle : Particle) : Particle :=
  let particle :=
    if (x particle <? #0) || (x particle >? cw)
    then set_vx particle (vx particle * #(-1)) else particle in
  let particle :=
    if (y particle <? #0) || (y particle >? ch)
    then set_vy particle (vy particle * #(-1)) else particle in
  particle.

(** Last, once the mouse has moved: attraction with a speed limit inside
    the magnetic radius, the pull back to the origin with friction
    outside. *)
Definition magnetism (m : Mouse) (particle : Particle) : Particle :=
  if moved m then
    let dx := mouseX m - x particle in
    let dy := mouseY m - y particle in
    let distance := Math_sqrt (dx * dx + dy * dy) in
    let magneticRadius := #200 in
    if distance <? magneticRadius then
      let force := dec 9 1 * (#1 - distance / magneticRadius) in
      let angle := Math_atan2 dy dx in
      let particle :=
        set_vx particle (vx particle + Math_cos angle * force * dec 2 1) in
      let particle :=
        set_vy particle (vy particle + Math_sin angle * force * dec 2 1) in
      let speed := Math_sqrt (square (vx particle) + square (vy particle)) in
      let maxSpeed := #3 in
      if speed >? maxSpeed then
        let particle := set_vx particle (vx particle / speed * maxSpeed) in
        let particle := set_vy particle (vy particle / speed * maxSpeed) in
        particle
      else particle
    else
      let returnForce := dec 1 2 in
      let particle :=
        set_vx particle
               (vx particle + (originalX particle - x particle) * returnForce) in
      let particle :=
        set_vy particle
               (vy particle + (originalY particle - y particle) * returnForce) in
      let particle := set_vx particle (vx particle * dec 98 2) in
      let particle := set_vy particle (vy particle * dec 98 2) in
      particle
  else particle.

Definition updateParticle (cw ch : num) (m : Mouse) (particle : Particle) : Particle :=
  magnetism m (reflect cw ch (advance particle)).

(** The callback of [connections.current.forEach].  [None] is the
    [TypeError] of reading [.x] of [undefined], raised when a connection
    that is to be drawn names an index outside the particle array; it is
    raised before [ctx.stroke()], so nothing is stroked for that
    connection. *)
Definition drawConnection (ps : list Particle) (conn : Connection)
  : option (list DrawOp) :=
  let p1 := nth_error ps (from conn) in
  let p2 := nth_error ps (to conn) in
  let opacity := #1 - distance conn / #150 in
  if opacity >? #0 then
    match p1, p2 with
    | Some p1, Some p2 =>
        Some [Stroke (x p1) (y p1) (x p2) (y p2) (opacity * dec 2 1)]
    | _, _ => None
    end
  else Some [].

(** [connections.current.forEach(...)]: the lines stroked, and whether the
    loop ended in a [TypeError].  The exception leaves the loop at the
    connection that raised it; the lines of the connections before it are
    on the canvas already. *)
Fixpoint drawConnections (ps : list Particle) (conns : list Connection)
  : list DrawOp * bool :=
  match conns with
  | [] => ([], false)
  | conn :: rest =>
      match drawConnection ps conn with
      | None => ([], true)
      | Some ops =>
          let (ops', raised) := drawConnections ps rest in
          (ops ++ ops', raised)
      end
  end.

Definition drawParticle (p : Particle) : DrawOp :=
  Disc (x p) (y p) (radius p) (color p).

(** One call of [animate]: the state it leaves, what it painted, whether it
    ended in an exception and whether it reached
    [requestAnimationFrame(animate)]. *)
Record Frame : Type := mkFrame {
  after : State;
  painted : list DrawOp;
  threw : bool;
  scheduled : bool
}.

Definition animate (st : State) : Frame :=
  match canvasRef st with
  | None => mkFrame st [] false false
  | Some canvas =>
      if negb (context2d canvas) then mkFrame st [] false false
      else
        let cw := widthOf canvas in
        let ch := heightOf canvas in
        let background := [FillRect #0 #0 cw ch] in
        let ps := map (updateParticle cw ch (mouse st)) (particles st) in
        let (lines, raised) := drawConnections ps (connections st) in
        if raised then
          mkFrame (mkState (canvasRef st) ps (connections st) (mouse st) (draws st))
                  (background ++ lines) true false
        else
          let discs := map drawParticle ps in
          let (r, n) := Math_random (draws st) in
          let conns :=
            if r <? dec 5 2 then updateConnections ps else connections st in
          mkFrame (mkState (canvasRef st) ps conns (mouse st) n)
                  (background ++ lines ++ discs) false true
  end.

(** [steps k st]: [k] frames in a row, each started by the scheduler only
    when the one before asked for it.  [None] when a frame threw or did not
    reschedule. *)
Fixpoint steps (k : nat) (st : State) : option State :=
  match k with
  | O => Some st
  | S k' =>
      let f := animate st in
      if scheduled f then steps k' (after f) else None
  end.

End Model.

(** ** Ideal arithmetic: the real numbers as numbers *)

Definition Rltb (a b : R) : bool := if Rlt_dec a b then true else false.

(** The angle of the vector [(dx, dy)], in (-PI, PI]. *)
Definition Ratan2 (dy dx : R) : R :=
  if Rlt_dec 0 dx then atan (dy / dx)
  else if Rlt_dec dx 0 then
    (if Rlt_dec dy 0 then atan (dy / dx) - PI else atan (dy / dx) + PI)
  else if Rlt_dec 0 dy then PI / 2
  else if Rlt_dec dy 0 then - (PI / 2)
  else 0.

#[export] Instance R_number : JsNumber R := {|
  num_of_Z := IZR;
  add := Rplus;
  sub := Rminus;
  mul := Rmult;
  div := Rdiv;
  ltb := Rltb;
  square := fun v => (v ^ 2)%R;
  Math_sqrt := sqrt;
  Math_cos := cos;
  Math_sin := sin;
  Math_atan2 := Ratan2;
  Math_floor := Int_part
|}.

(** ** Machine arithmetic: binary64 as numbers *)

(** The numbers of the engine are IEEE 754 binary64 values; the kernel's
    primitive floats are the same format with the same rounding.  The
    integer literals of the code are small and exact.  [v ** 2] is taken
    as the correctly rounded [v * v].  The functions [Math.cos], [Math.sin]
    and [Math.atan2], which the language leaves to the implementation, stay
    parameters. *)

Definition float_of_Z (z : Z) : PrimFloat.float :=
  if (z <? 0)%Z
  then PrimFloat.opp (PrimFloat.of_uint63 (Uint63Axioms.of_Z (- z)))
  else PrimFloat.of_uint63 (Uint63Axioms.of_Z z).

(** [Math.floor] of a finite value, from its mantissa and exponent; 0 for
    a NaN or an infinity, which give no usable array length. *)
Definition float_floor (f : PrimFloat.float) : Z :=
  match FloatOps.Prim2SF f with
  | SpecFloat.S754_finite s m e =>
      let sm := if s then Z.neg m else Z.pos m in
      if (0 <=? e)%Z then (sm * 2 ^ e)%Z else (sm / 2 ^ (- e))%Z
  | _ => 0%Z
  end.

Definition binary64 (cos64 sin64 : PrimFloat.float -> PrimFloat.float)
           (atan2_64 : PrimFloat.float -> PrimFloat.float -> PrimFloat.float)
  : JsNumber PrimFloat.float := {|
  num_of_Z := float_of_Z;
  add := PrimFloat.add;
  sub := PrimFloat.sub;
  mul := PrimFloat.mul;
  div := PrimFloat.div;
  ltb := PrimFloat.ltb;
  square := fun v => PrimFloat.mul v v;
  Math_sqrt := PrimFloat.sqrt;
  Math_cos := cos64;
  Math_sin := sin64;
  Math_atan2 := atan2_64;
  Math_floor := float_floor
|}.

(** Binary64 for code that calls none of [Math.cos], [Math.sin] and
    [Math.atan2] (the graph, the creation of the particles, a frame with
    the mouse still): the three functions are placeholders that return
    NaN. *)
Definition arith64 : JsNumber PrimFloat.float :=
  binary64 (fun _ => PrimFloat.nan) (fun _ => PrimFloat.nan)
           (fun _ _ => PrimFloat.nan).

(** The exact value of a finite binary64 number in units of [2^-k], when
    that is an integer: the number is [m * 2^e] with integers [m] and
    [e], so its value in these units is [m * 2^(e + k)]. *)
Definition exactUnits (k : Z) (f : PrimFloat.float) : option Z :=
  match FloatOps.Prim2SF f with
  | SpecFloat.S754_zero _ => Some 0%Z
  | SpecFloat.S754_finite s m e =>
      if (0 <=? e + k)%Z
      then Some ((if s then Z.neg m else Z.pos m) * 2 ^ (e + k))%Z
      else None
  | _ => None
  end.

(** The pair of indices of a connection. *)
Definition endpoints {num : Type} (c : @Connection num) : nat * nat :=
  (from c, to c).

(** The position of a particle. *)
Definition position {num : Type} (p : @Particle num) : num * num :=
  (x p, y p).

(** The velocity of a particle. *)
Definition velocity {num : Type} (p : @Particle num) : num * num :=
  (vx p, vy p).

(** The speed of a particle, as [animate] computes it. *)
Definition speed {num : Type} `{JsNumber num} (p : Particle) : num :=
  Math_sqrt (square (vx p) + square (vy p))%js.

(** A draw of [Math.random] lies in [0, 1). *)
Definition unitDraws (entropy : nat -> R) : Prop :=
  forall n, (0 <= entropy n < 1)%R.

(** The bounds of one freshly created particle. *)
Definition asCreated (W H : N) (p : @Particle R) : Prop :=
  (0 <= x p < IZR (Z.of_N W) /\ 0 <= y p < IZR (Z.of_N H) /\
   -0.15 <= vx p <= 0.15 /\ -0.15 <= vy p <= 0.15 /\
   1 <= radius p <= 3.5 /\
   originalX p = x p /\ originalY p = y p)%R.

(** ** Scenarios *)

(** The scenarios are written against the number interface, so that each
    can be followed in ideal arithmetic and run in binary64. *)

Section Scenarios.
Context {num : Type} `{JsNumber num}.
Local Open Scope js_scope.

(** The refs as [useRef] creates them, around a canvas (or none). *)
Definition mounted (canvas : option Canvas) : State :=
  mkState canvas [] [] (mkMouse #0 #0 false) 0.

(** A canvas element before the effect sizes it (300 by 150 is the
    default size of the element), with a 2D context. *)
Definition blankCanvas : Canvas := mkCanvas 300 150 true.

(** A host whose every draw is 0. *)
Definition zeros : nat -> num := fun _ => #0.

(** A host whose first draw is 1499/8000, whose third is 0 and whose other
    draws are 0.5: on a canvas 800 wide the first particle starts at
    x = 149.9 and moves left by 0.15 a frame; the others rest at the
    centre; no frame rebuilds the graph. *)
Definition skim : nat -> num :=
  fun n => match n with
           | 0%nat => #1499 / #8000
           | 2%nat => #0
           | _ => dec 5 1
           end.

(** The window of the scenarios. *)
Definition viewport : Canvas := mkCanvas 800 600 true.

(** A particle with the radius and colour that draws of 0 give. *)
Definition particleAt (px py pvx pvy ox oy : num) : Particle :=
  mkParticle px py pvx pvy #1 (hsla #220 #70 #50 (dec 8 1)) ox oy.

(** One particle on a canvas of 100 by 80, as the mount effect creates it
    when every draw is 0: at the corner (0, 0), moving up and left. *)
Definition cornerField : State :=
  initialize zeros 100 80 (mounted (Some blankCanvas)).

(** Two particles 150.05 apart that move towards each other by 0.1 a
    frame each, with the graph as a rebuild leaves it (no connection: they
    are not yet within 150), the mouse never moved. *)
Definition approaching : State :=
  mkState (Some viewport)
          [particleAt #0 #100 (dec 1 1) #0 #0 #100;
           particleAt (dec 15005 2) #100 (dec (-1) 1) #0 (dec 15005 2) #100]
          [] (mkMouse #0 #0 false) 0.

(** A particle at rest that the mouse has dragged 600 to the left of its
    origin, and the mouse back over that origin. *)
Definition dragged : Particle := particleAt #100 #300 #0 #0 #700 #300.
Definition overOrigin : Mouse := mkMouse #700 #300 true.


(** Two particles 100 apart that move towards each other, with the
    connection between them cached, the mouse never moved. *)
Definition linked : State :=
  mkState (Some viewport)
          [particleAt #0 #100 (dec 1 1) #0 #0 #100;
           particleAt #100 #100 (dec (-1) 1) #0 #100 #100]
          [mkConnection 0 1 #100] (mkMouse #0 #0 false) 0.

(** The same field with a connection list that names a particle that is
    not there, between two connections that can be drawn. *)
Definition torn : State :=
  mkState (Some viewport) (particles linked)
          [mkConnection 0 1 #100; mkConnection 0 5 #100; mkConnection 0 1 #50]
          (mkMouse #0 #0 false) 0.

(** The field of 800 by 600 under the draws [skim]. *)
Definition skimField : State :=
  initialize skim 800 600 (mounted (Some blankCanvas)).

End Scenarios.

(** Two binary64 particles: one at the origin, one at (90, 120 - 2^-46),
    the largest binary64 number below 120. *)
Definition origin64 : @Particle PrimFloat.float :=
  @particleAt _ arith64 (@num_of_Z _ arith64 0) (@num_of_Z _ arith64 0)
              (@num_of_Z _ arith64 0) (@num_of_Z _ arith64 0)
              (@num_of_Z _ arith64 0) (@num_of_Z _ arith64 0).

Definition grazing64 : @Particle PrimFloat.float :=
  let below120 :=
    @sub _ arith64 (@num_of_Z _ arith64 120)
         (@div _ arith64 (@num_of_Z _ arith64 1) (@num_of_Z _ arith64 (2 ^ 46))) in
  @particleAt _ arith64 (@num_of_Z _ arith64 90) below120
              (@num_of_Z _ arith64 0) (@num_of_Z _ arith64 0)
              (@num_of_Z _ arith64 90) below120.

(** The lines among the operations of a frame. *)
Definition isStroke {num : Type} (op : @DrawOp num) : bool :=
  match op with Stroke _ _ _ _ _ => true | _ => false end.

Definition strokes {num : Type} (ops : list (@DrawOp num)) : list DrawOp :=
  filter isStroke ops.

(** The state after [k] calls of [animate], whatever each call did. *)
Definition afterFrames {num : Type} `{JsNumber num} (entropy : nat -> num)
           (k : nat) (st : State) : State :=
  Nat.iter k (fun s => after (animate entropy s)) st.

(** With the mouse still, what a coordinate and its velocity component
    keep from frame to frame on a canvas of extent [extent]: the speed is
    at most [a], and a coordinate outside the canvas is on its way back in
    with the next move. *)
Definition returning (a extent c v : R) : Prop :=
  (- a <= v <= a /\ (c < 0 -> 0 <= c + v) /\ (extent < c -> c + v <= extent))%R.

Definition settled (a cw ch : R) (p : @Particle R) : Prop :=
  returning a cw (x p) (vx p) /\ returning a ch (y p) (vy p).

(** At most one move of length 0.15 outside a canvas of 800 by 600. *)
Definition nearViewport (p : @Particle R) : Prop :=
  (-0.15 <= x p <= 800.15 /\ -0.15 <= y p <= 600.15)%R.

(** ** The component in its host *)

(** The effect that runs at mount, its cleanup, and the callbacks it hands
    to the host.  The host keeps the queue of frame requests (every request
    is for [animate], so a handle stands for the callback), gives out fresh
    handles, and holds the listeners and the timer.  The listener on
    [resize] reloads the page, which ends the life of the component; it is
    recorded as registered and its callback is not followed further. *)

Section Lifecycle.
Context {num : Type} `{JsNumber num}.
Variable entropy : nat -> num.

Record Component : Type := mkComponent {
  refs : @State num;
  (** [animationFrameRef.current], [undefined] at first *)
  animationFrameRef : option nat;
  (** [useState(false)] *)
  showContent : bool;
  (** the frame callbacks the host still has to run, by handle *)
  frameRequests : list nat;
  nextHandle : nat;
  mousemoveListener : bool;
  resizeListener : bool;
  (** the timer of [setTimeout(..., 500)] has not fired yet *)
  timeoutPending : bool;
  (** the effect has returned its cleanup and React has not run it *)
  cleanupPending : bool;
  (** React has unmounted the component *)
  unmounted : bool
}.

(** The component before its effect runs, around a canvas (or none). *)
Definition created (canvas : option Canvas) : Component :=
  mkComponent (mounted canvas) None false [] 1 false false false false false.

Definition setRefs (c : Component) (st : State) : Component :=
  mkComponent st (animationFrameRef c) (showContent c) (frameRequests c)
              (nextHandle c) (mousemoveListener c) (resizeListener c)
              (timeoutPending c) (cleanupPending c) (unmounted c).

(** [requestAnimationFrame(animate)]: the callback is queued under a fresh
    handle, which is returned. *)
Definition requestAnimationFrame (c : Component) : nat * Component :=
  (nextHandle c,
   mkComponent (refs c) (animationFrameRef c) (showContent c)
               (frameRequests c ++ [nextHandle c]) (S (nextHandle c))
               (mousemoveListener c) (resizeListener c)
               (timeoutPending c) (cleanupPending c) (unmounted c)).

(** [cancelAnimationFrame(handle)]; [undefined] cancels nothing. *)
Definition cancelAnimationFrame (handle : option nat) (c : Component)
  : Component :=
  match handle with
  | None => c
  | Some h =>
      mkComponent (refs c) (animationFrameRef c) (showContent c)
                  (remove Nat.eq_dec h (frameRequests c)) (nextHandle c)
                  (mousemoveListener c) (resizeListener c)
                  (timeoutPending c) (cleanupPending c) (unmounted c)
  end.

(** [animate] as the host calls it, with its last statement
    [animationFrameRef.current = requestAnimationFrame(animate)]. *)
Definition animateCallback (c : Component) : Component :=
  let f := animate entropy (refs c) in
  let c := setRefs c (after f) in
  if scheduled f then
    let (h, c) := requestAnimationFrame c in
    mkComponent (refs c) (Some h) (showContent c) (frameRequests c)
                (nextHandle c) (mousemoveListener c) (resizeListener c)
                (timeoutPending c) (cleanupPending c) (unmounted c)
  else c.

(** The body of [useEffect(() => {...}, [])].  Without a canvas it returns
    at once: no listener, no timer, and no cleanup is handed to React.  An
    exception in the first call of [animate] would leave the effect before
    the listeners, the timer and the cleanup.  Otherwise the two listeners
    and the timer are registered and the cleanup is returned. *)
Definition mountEffect (innerWidth innerHeight : N) (c : Component)
  : Component :=
  match canvasRef (refs c) with
  | None => c
  | Some _ =>
      let c := setRefs c (initialize entropy innerWidth innerHeight (refs c)) in
      let raised := threw (animate entropy (refs c)) in
      let c := animateCallback c in
      if raised then c
      else
        mkComponent (refs c) (animationFrameRef c) (showContent c)
                    (frameRequests c) (nextHandle c) true true true true
                    (unmounted c)
  end.

(** The cleanup that the effect returns: the frame request named by the
    ref is cancelled and the [mousemove] listener removed.  The listener on
    [resize] and the timer are left as they are. *)
Definition cleanup (c : Component) : Component :=
  let c := cancelAnimationFrame (animationFrameRef c) c in
  mkComponent (refs c) (animationFrameRef c) (showContent c)
              (frameRequests c) (nextHandle c) false (resizeListener c)
              (timeoutPending c) false (unmounted c).

(** At a repaint the host takes the queue as it stands and runs its
    callbacks; requests made meanwhile wait for the next repaint. *)
Fixpoint runCallbacks (handles : list nat) (c : Component) : Component :=
  match handles with
  | [] => c
  | _ :: handles' => runCallbacks handles' (animateCallback c)
  end.

Definition repaint (c : Component) : Component :=
  runCallbacks (frameRequests c)
               (mkComponent (refs c) (animationFrameRef c) (showContent c) []
                            (nextHandle c) (mousemoveListener c)
                            (resizeListener c) (timeoutPending c)
                            (cleanupPending c) (unmounted c)).

(** What can happen to the component once its effect has run.  The timer
    can fire only if the effect registered it, and it fires once; the
    cleanup does not clear it, so its callback [setShowContent(true)] can
    run after the unmount, where React ignores the state update of a
    component that is no longer mounted.  At the unmount React runs the
    cleanup if the effect returned one; a component whose effect returned
    early (no canvas) is unmounted all the same. *)
Inductive Event : Type :=
| Repaint
| MouseMove (clientX clientY : num)
| Timeout
| Unmount.

(** [setShowContent(true)]. *)
Definition setShowContent (c : Component) : Component :=
  if unmounted c then c
  else mkComponent (refs c) (animationFrameRef c) true (frameRequests c)
                   (nextHandle c) (mousemoveListener c) (resizeListener c)
                   (timeoutPending c) (cleanupPending c) (unmounted c).

Definition unmount (c : Component) : Component :=
  let c := if cleanupPending c then cleanup c else c in
  mkComponent (refs c) (animationFrameRef c) (showContent c)
              (frameRequests c) (nextHandle c) (mousemoveListener c)
              (resizeListener c) (timeoutPending c) (cleanupPending c) true.

Definition handleEvent (c : Component) (e : Event) : Component :=
  match e with
  | Repaint => repaint c
  | MouseMove clientX clientY =>
      if mousemoveListener c
      then setRefs c (handleMouseMove clientX clientY (refs c)) else c
  | Timeout =>
      if timeoutPending c
      then setShowContent
             (mkComponent (refs c) (animationFrameRef c) (showContent c)
                          (frameRequests c) (nextHandle c)
                          (mousemoveListener c) (resizeListener c) false
                          (cleanupPending c) (unmounted c))
      else c
  | Unmount => unmount c
  end.

Definition run (events : list Event) (c : Component) : Component :=
  fold_left handleEvent events c.

End Lifecycle.

(** ** A particle from its draws *)

(** The particle that eight consecutive draws, from the [n]-th on, make on
    a window [W] by [H]: position, velocity, radius, then hue, saturation
    and lightness, in the order in which the effect makes them. *)
Definition particleFromDraws {num : Type} `{JsNumber num}
           (entropy : nat -> num) (W H0 : N) (n : nat) : Particle :=
  (let px := entropy n * #(Z.of_N W) in
   let py := entropy (1 + n)%nat * #(Z.of_N H0) in
   mkParticle px py
              ((entropy (2 + n)%nat - dec 5 1) * dec 3 1)
              ((entropy (3 + n)%nat - dec 5 1) * dec 3 1)
              (entropy (4 + n)%nat * dec 25 1 + #1)
              (hsla (entropy (5 + n)%nat * #60 + #220)
                    (entropy (6 + n)%nat * #30 + #70)
                    (entropy (7 + n)%nat * #20 + #50) (dec 8 1))
              px py)%js.


(** A canvas whose [getContext('2d')] gives nothing. *)
Definition blindCanvas : Canvas := mkCanvas 300 150 false.

(** ** Properties that frames, graphs and hosts keep *)

(** Two particles of the same make: radius, colour and origin. *)
Definition sameMake {num : Type} (p q : @Particle num) : Prop :=
  radius q = radius p /\ color q = color p /\
  originalX q = originalX p /\ originalY q = originalY p.

(** A connection that the frame would draw: the test [opacity > 0] on
    its cached distance. *)
Definition visible {num : Type} `{JsNumber num} (c : Connection) : bool :=
  (#1 - distance c / #150 >? #0)%js.

(** A connection that the frame would draw and that names an index outside
    an array of [n] particles. *)
Definition dangling {num : Type} `{JsNumber num} (n : nat) (c : Connection)
  : Prop :=
  visible c = true /\ ((n <= from c)%nat \/ (n <= to c)%nat).

(** [lineOf ps c op]: [op] is the line of the connection [c] over the
    particles [ps]: from the particle at [from c] to the one at [to c],
    with the stroke alpha [(1 - distance / 150) * 0.2] of the cached
    distance. *)
Definition lineOf {num : Type} `{JsNumber num} (ps : list Particle)
           (c : Connection) (op : DrawOp) : Prop :=
  exists p1 p2,
    nth_error ps (from c) = Some p1 /\ nth_error ps (to c) = Some p2 /\
    op = Stroke (x p1) (y p1) (x p2) (y p2)
                ((#1 - distance c / #150) * dec 2 1)%js.

(** A colour of the blue to purple band. *)
Definition inBand (c : @Color R) : Prop :=
  (220 <= hue c <= 280 /\ 70 <= saturation c <= 100 /\
   50 <= lightness c <= 70 /\ alpha c = 8 / 10)%R.

(** A line with a stroke alpha in (0, 0.2]. *)
Definition faintLine (op : @DrawOp R) : Prop :=
  exists x1 y1 x2 y2 a, op = Stroke x1 y1 x2 y2 a /\ (0 < a <= 2 / 10)%R.



(** What the frame callbacks leave alone in the host. *)
Definition sameHost {num : Type} (c c' : @Component num) : Prop :=
  showContent c' = showContent c /\
  mousemoveListener c' = mousemoveListener c /\
  resizeListener c' = resizeListener c /\
  timeoutPending c' = timeoutPending c /\
  cleanupPending c' = cleanupPending c /\
  unmounted c' = unmounted c.

(** At most one frame request waits, and the ref names it; once the
    cleanup has run (or before the effect has), none waits and the
    [mousemove] listener is off. *)
Definition tidy {num : Type} (c : @Component num) : Prop :=
  (frameRequests c = [] \/
   exists h, frameRequests c = [h] /\ animationFrameRef c = Some h) /\
  (cleanupPending c = false ->
   frameRequests c = [] /\ mousemoveListener c = false).

Definition isTimeout {num : Type} (e : @Event num) : bool :=
  match e with Timeout => true | _ => false end.

Definition isUnmount {num : Type} (e : @Event num) : bool :=
  match e with Unmount => true | _ => false end.

(** The events that arrive before the first unmount. *)
Fixpoint untilUnmount {num : Type} (events : list (@Event num))
  : list Event :=
  match events with
  | [] => []
  | e :: events' => if isUnmount e then [] else e :: untilUnmount events'
  end.

(** * Results *)

(** ** The connection graph *)

Section Graph.
Context {num : Type} `{JsNumber num}.
Local Open Scope js_scope.

Lemma in_connectPair (ps : list Particle) (i j : nat) (c : Connection) :
  In c (connectPair ps i j) <->
  exists pi pj,
    nth_error ps i = Some pi /\ nth_error ps j = Some pj /\
    c = mkConnection i j (pairDistance pi pj) /\
    (pairDistance pi pj <? #150) = true.
Proof.
  unfold connectPair. split.
  - destruct (nth_error ps i) as [pi|]; [|intros []].
    destruct (nth_error ps j) as [pj|]; [|intros []].
    destruct (pairDistance pi pj <? #150) eqn:E; [|intros []].
    intros [<-|[]]. now exists pi, pj.
  - intros (pi & pj & -> & -> & -> & ->). now left.
Qed.

Lemma in_updateConnections (ps : list Particle) (c : Connection) :
  In c (updateConnections ps) <->
  exists i j, (i < j)%nat /\ In c (connectPair ps i j).
Proof.
  unfold updateConnections. rewrite in_flat_map. split.
  - intros (i & _ & Hc). apply in_flat_map in Hc as (j & Hj & Hc).
    apply in_seq in Hj. exists i, j. split; [lia | exact Hc].
  - intros (i & j & Hij & Hc). exists i.
    pose proof Hc as Hc'. apply in_connectPair in Hc' as (pi & pj & _ & Hj & _).
    assert (j < length ps)%nat by (apply nth_error_Some; congruence).
    split; [apply in_seq; lia|].
    apply in_flat_map. exists j. split; [apply in_seq; lia | exact Hc].
Qed.

(** A list built by [flat_map] has no two elements with the same key when
    the key of an element tells which index produced it. *)
Lemma NoDup_flat_map_keys (A B K : Type) (key : B -> K) (origin : K -> A)
      (f : A -> list B) (l : list A) :
  NoDup l ->
  (forall a, NoDup (map key (f a))) ->
  (forall a b, In b (f a) -> origin (key b) = a) ->
  NoDup (map key (flat_map f l)).
Proof.
  intros Hl Hf Ho. induction Hl as [|a l Ha Hl IH]; simpl.
  - constructor.
  - rewrite map_app. apply NoDup_app; [apply Hf | exact IH |].
    intros k Hk1 Hk2.
    apply in_map_iff in Hk1 as (b1 & <- & Hb1).
    apply in_map_iff in Hk2 as (b2 & Hk & Hb2).
    apply in_flat_map in Hb2 as (a' & Ha' & Hb2).
    apply Ho in Hb1. apply Ho in Hb2. rewrite Hk, Hb1 in Hb2.
    subst a'. contradiction.
Qed.

Lemma connectPair_endpoints (ps : list Particle) (i j : nat) (c : Connection) :
  In c (connectPair ps i j) -> endpoints c = (i, j).
Proof.
  intros Hc. apply in_connectPair in Hc as (pi & pj & _ & _ & -> & _).
  reflexivity.
Qed.

Lemma updateConnections_NoDup (ps : list Particle) :
  NoDup (map endpoints (updateConnections ps)).
Proof.
  unfold updateConnections.
  apply NoDup_flat_map_keys with (origin := fst); [apply seq_NoDup | |].
  - intros i.
    apply NoDup_flat_map_keys with (origin := snd); [apply seq_NoDup | |].
    + intros j. unfold connectPair.
      destruct (nth_error ps i); [|constructor].
      destruct (nth_error ps j); [|constructor].
      destruct (_ <? _); simpl; repeat constructor. intros [].
    + intros j c Hc. now rewrite (connectPair_endpoints _ _ _ _ Hc).
  - intros i c Hc. apply in_flat_map in Hc as (j & _ & Hc).
    now rewrite (connectPair_endpoints _ _ _ _ Hc).
Qed.

(** The graph reads nothing of a particle but its position. *)
Lemma connectPair_positions (ps ps' : list Particle) (i j : nat) :
  map position ps' = map position ps ->
  connectPair ps' i j = connectPair ps i j.
Proof.
  intros E. unfold connectPair.
  assert (Hn : forall k, option_map position (nth_error ps' k)
                         = option_map position (nth_error ps k)).
  { intros k. rewrite <- !nth_error_map. now rewrite E. }
  pose proof (Hn i) as Hi. pose proof (Hn j) as Hj.
  destruct (nth_error ps' i) as [pi'|], (nth_error ps i) as [pi|];
    simpl in Hi; try discriminate; [|reflexivity].
  destruct (nth_error ps' j) as [pj'|], (nth_error ps j) as [pj|];
    simpl in Hj; try discriminate; [|reflexivity].
  unfold position in Hi, Hj. injection Hi as Hix Hiy. injection Hj as Hjx Hjy.
  unfold pairDistance. now rewrite Hix, Hiy, Hjx, Hjy.
Qed.

Lemma updateConnections_positions (ps ps' : list Particle) :
  map position ps' = map position ps ->
  updateConnections ps' = updateConnections ps.
Proof.
  intros E. unfold updateConnections.
  assert (El : length ps' = length ps).
  { rewrite <- (length_map position ps'), E. apply length_map. }
  rewrite El. apply flat_map_ext. intros i. apply flat_map_ext. intros j.
  now apply connectPair_positions.
Qed.

End Graph.

(** C1, amended.  For every particle array, [updateConnections] returns
    exactly the pairs of indices [i < j] of particles whose distance, as
    the code computes it in the arithmetic of the engine,
    [Math.sqrt(dx * dx + dy * dy)] with [dx] and [dy] the differences of
    the coordinates, is below 150, each with that computed distance stored;
    no pair of indices occurs twice (and none is a self-pair, as
    [from < to]); and the result depends on nothing but the positions of
    the particles. *)
Theorem updateConnections_exact {num : Type} `{JsNumber num}
        (ps : list Particle) :
  (forall c : Connection,
      In c (updateConnections ps) <->
      exists pi pj,
        nth_error ps (from c) = Some pi /\ nth_error ps (to c) = Some pj /\
        (from c < to c)%nat /\
        distance c
        = Math_sqrt ((x pi - x pj) * (x pi - x pj)
                     + (y pi - y pj) * (y pi - y pj))%js /\
        (Math_sqrt ((x pi - x pj) * (x pi - x pj)
                    + (y pi - y pj) * (y pi - y pj)) <? #150)%js = true)
  /\ NoDup (map (fun c : Connection => (from c, to c)) (updateConnections ps))
  /\ (forall ps' : list Particle,
         map (fun p : Particle => (x p, y p)) ps'
         = map (fun p : Particle => (x p, y p)) ps ->
         updateConnections ps' = updateConnections ps).
Proof.
  split; [|split].
  - intros c. rewrite in_updateConnections. split.
    + intros (i & j & Hij & Hc).
      apply in_connectPair in Hc as (pi & pj & Hi & Hj & -> & Hd).
      exists pi, pj. simpl. auto.
    + intros (pi & pj & Hi & Hj & Hlt & Hd & Hb).
      exists (from c), (to c). split; [exact Hlt|].
      apply in_connectPair. exists pi, pj. repeat split; try assumption.
      destruct c; simpl in *. now subst.
  - apply updateConnections_NoDup.
  - intros ps'. apply updateConnections_positions.
Qed.

(** In exact arithmetic the computed distance is the Euclidean distance:
    over the real numbers the graph holds exactly the pairs less than 150
    apart. *)
Lemma updateConnections_euclidean (ps : list (@Particle R)) (c : Connection) :
  In c (updateConnections ps) <->
  exists pi pj,
    nth_error ps (from c) = Some pi /\ nth_error ps (to c) = Some pj /\
    (from c < to c)%nat /\
    distance c = sqrt ((x pi - x pj) ^ 2 + (y pi - y pj) ^ 2)%R /\
    (sqrt ((x pi - x pj) ^ 2 + (y pi - y pj) ^ 2) < 150)%R.
Proof.
  assert (Hsq : forall pi pj : @Particle R,
             pairDistance pi pj = sqrt ((x pi - x pj) ^ 2 + (y pi - y pj) ^ 2)%R).
  { intros pi pj. unfold pairDistance. cbn [Math_sqrt add sub mul R_number].
    f_equal. ring. }
  rewrite in_updateConnections. split.
  - intros (i & j & Hij & Hc).
    apply in_connectPair in Hc as (pi & pj & Hi & Hj & -> & Hd).
    exists pi, pj. cbn [from to distance]. rewrite <- Hsq.
    repeat split; trivial.
    revert Hd. cbn [ltb num_of_Z R_number]. unfold Rltb.
    destruct (Rlt_dec _ _); [trivial | discriminate].
  - intros (pi & pj & Hi & Hj & Hlt & Hd & Hb).
    exists (from c), (to c). split; [exact Hlt|].
    apply in_connectPair. exists pi, pj. rewrite <- Hsq in Hd, Hb.
    repeat split; try assumption.
    + destruct c; simpl in *. now subst.
    + cbn [ltb num_of_Z R_number]. unfold Rltb.
      destruct (Rlt_dec _ _); [reflexivity | contradiction].
Qed.

(** C1 as stated fails in the arithmetic of the engine.  The binary64
    particles [origin64] and [grazing64] are at (0, 0) and at
    (90, 120 - 2^-46) exactly; the square of their Euclidean distance is
    below the square of 150 (computed exactly, in units of 2^-92); but
    [dy * dy], the sum and the square root each round, the computed
    distance is 150, and the graph leaves the pair out. *)
Lemma rounded_distance_drops_pair :
  (exactUnits 46 (x origin64), exactUnits 46 (y origin64))
  = (Some 0%Z, Some 0%Z) /\
  (exactUnits 46 (x grazing64), exactUnits 46 (y grazing64))
  = (Some (90 * 2 ^ 46)%Z, Some (120 * 2 ^ 46 - 1)%Z) /\
  ((0 - 90 * 2 ^ 46) ^ 2 + (0 - (120 * 2 ^ 46 - 1)) ^ 2 < (150 * 2 ^ 46) ^ 2)%Z /\
  @pairDistance _ arith64 origin64 grazing64 = @num_of_Z _ arith64 150 /\
  @updateConnections _ arith64 [origin64; grazing64] = [].
Proof. vm_compute. repeat split. Qed.

(** C10.  Every connection that [updateConnections] produces has
    [from < to < particles.length], and so names two distinct particles
    that exist in the array the graph was built from. *)
Theorem updateConnections_indices {num : Type} `{JsNumber num}
        (ps : list Particle) :
  Forall
    (fun c : Connection =>
       (0 <= from c)%nat /\ (from c < to c)%nat /\ (to c < length ps)%nat /\
       from c <> to c /\
       exists p1 p2,
         nth_error ps (from c) = Some p1 /\ nth_error ps (to c) = Some p2)
    (updateConnections ps).
Proof.
  apply Forall_forall. intros c Hc.
  apply in_updateConnections in Hc as (i & j & Hij & Hc).
  apply in_connectPair in Hc as (pi & pj & Hi & Hj & -> & _). simpl.
  assert (j < length ps)%nat by (apply nth_error_Some; congruence).
  repeat split; try lia. now exists pi, pj.
Qed.

(** ** The frame *)

Section Frames.
Context {num : Type} `{JsNumber num}.
Variable entropy : nat -> num.
Local Open Scope js_scope.

(** The velocity phase never touches the position. *)
Lemma magnetism_position (m : Mouse) (p : Particle) :
  x (magnetism m p) = x p /\ y (magnetism m p) = y p.
Proof.
  unfold magnetism. destruct (moved m); [|auto].
  repeat match goal with |- context [if ?b then _ else _] => destruct b end;
    simpl; auto.
Qed.

Lemma reflect_position (cw ch : num) (p : Particle) :
  x (reflect cw ch p) = x p /\ y (reflect cw ch p) = y p.
Proof.
  unfold reflect.
  repeat match goal with |- context [if ?b then _ else _] => destruct b end;
    simpl; auto.
Qed.

Lemma updateParticle_position (cw ch : num) (m : Mouse) (p : Particle) :
  x (updateParticle cw ch m p) = x p + vx p /\
  y (updateParticle cw ch m p) = y p + vy p.
Proof.
  unfold updateParticle.
  destruct (magnetism_position m (reflect cw ch (advance p))) as [-> ->].
  destruct (reflect_position cw ch (advance p)) as [-> ->].
  split; reflexivity.
Qed.

(** What [reflect] leaves in the velocity. *)
Lemma reflect_velocity (cw ch : num) (p : Particle) :
  vx (reflect cw ch p)
  = (if (x p <? #0) || (x p >? cw) then vx p * #(-1) else vx p) /\
  vy (reflect cw ch p)
  = (if (y p <? #0) || (y p >? ch) then vy p * #(-1) else vy p).
Proof.
  unfold reflect.
  destruct ((x p <? #0) || (x p >? cw)); simpl;
    destruct ((y p <? #0) || (y p >? ch)); simpl; auto.
Qed.

(** With a canvas and a context, the frame always moves the particles. *)
Lemma animate_particles (st : State) (canvas : Canvas) :
  canvasRef st = Some canvas -> context2d canvas = true ->
  particles (after (animate entropy st))
  = map (updateParticle (widthOf canvas) (heightOf canvas) (mouse st))
        (particles st).
Proof.
  intros Hc Hx. unfold animate. rewrite Hc, Hx. simpl.
  destruct (drawConnections _ _) as [lines [|]]; reflexivity.
Qed.

(** The listener writes the mouse record and nothing else; from then on
    the mouse counts as moved. *)
Lemma handleMouseMove_moved (clientX clientY : num) (st : State) :
  moved (mouse (handleMouseMove clientX clientY st)) = true /\
  particles (handleMouseMove clientX clientY st) = particles st /\
  connections (handleMouseMove clientX clientY st) = connections st.
Proof. repeat split. Qed.

Lemma drawConnections_inRange (ps : list Particle) (conns : list Connection) :
  Forall (inRange (length ps)) conns ->
  exists lines, drawConnections ps conns = (lines, false).
Proof.
  induction 1 as [|c conns [Hf Ht] _ (lines & IH)]; simpl.
  - now exists [].
  - unfold drawConnection.
    destruct (nth_error ps (from c)) as [p1|] eqn:E1;
      [|apply nth_error_None in E1; lia].
    destruct (nth_error ps (to c)) as [p2|] eqn:E2;
      [|apply nth_error_None in E2; lia].
    rewrite IH. destruct (_ <? _); eexists; reflexivity.
Qed.

Lemma updateConnections_inRange (ps : list Particle) :
  Forall (inRange (length ps)) (updateConnections ps).
Proof.
  apply Forall_forall. intros c Hc.
  apply in_updateConnections in Hc as (i & j & Hij & Hc).
  apply in_connectPair in Hc as (pi & pj & Hi & Hj & -> & _).
  assert (j < length ps)%nat by (apply nth_error_Some; congruence).
  split; simpl; lia.
Qed.

(** The frame in full when nothing is raised. *)
Lemma animate_drawn (st : State) (canvas : Canvas) (lines : list DrawOp) :
  canvasRef st = Some canvas -> context2d canvas = true ->
  drawConnections
    (map (updateParticle (widthOf canvas) (heightOf canvas) (mouse st))
         (particles st))
    (connections st) = (lines, false) ->
  let ps := map (updateParticle (widthOf canvas) (heightOf canvas) (mouse st))
                (particles st) in
  animate entropy st
  = mkFrame
      (mkState (canvasRef st) ps
               (if entropy (draws st) <? dec 5 2
                then updateConnections ps else connections st)
               (mouse st) (S (draws st)))
      ([FillRect #0 #0 (widthOf canvas) (heightOf canvas)]
         ++ lines ++ map drawParticle ps)
      false true.
Proof.
  intros Hc Hx Hd. unfold animate. rewrite Hc, Hx. simpl. rewrite Hd.
  reflexivity.
Qed.

(** Frames keep running as long as the connections are drawable: [k]
    frames from such a state all reschedule, and move every particle [k]
    times. *)
Lemma steps_total (k : nat) : forall (st : State) (canvas : Canvas),
  canvasRef st = Some canvas -> context2d canvas = true ->
  Forall (inRange (length (particles st))) (connections st) ->
  exists st',
    steps entropy k st = Some st' /\
    canvasRef st' = Some canvas /\
    mouse st' = mouse st /\
    particles st'
    = map (Nat.iter k (updateParticle (widthOf canvas) (heightOf canvas) (mouse st)))
          (particles st) /\
    Forall (inRange (length (particles st'))) (connections st').
Proof.
  induction k as [|k IH]; intros st canvas Hc Hx Hr.
  - exists st. simpl. rewrite map_id. auto.
  - set (ps := map (updateParticle (widthOf canvas) (heightOf canvas) (mouse st))
                   (particles st)).
    assert (Hr' : Forall (inRange (length ps)) (connections st)).
    { unfold ps. now rewrite length_map. }
    destruct (@drawConnections_inRange ps _ Hr') as (lines & Hd).
    pose proof (@animate_drawn st canvas lines Hc Hx Hd) as Ha. cbv zeta in Ha. fold ps in Ha.
    simpl steps. rewrite Ha. cbn [scheduled after].
    match goal with |- context [steps entropy k ?s] => set (st1 := s) end.
    destruct (IH st1 canvas) as (st' & Hs & Hc' & Hm' & Hp' & Hr'').
    + exact Hc.
    + exact Hx.
    + unfold st1. cbn [particles connections].
      destruct (_ <? _); [apply updateConnections_inRange | exact Hr'].
    + exists st'. split; [exact Hs|]. split; [exact Hc'|].
      split; [exact Hm'|]. split; [|exact Hr''].
      rewrite Hp'. unfold st1. cbn [particles mouse]. unfold ps.
      rewrite map_map. apply map_ext. intros p.
      clear. induction k as [|k IHk]; [reflexivity|].
      simpl Nat.iter at 1. rewrite IHk. reflexivity.
Qed.

End Frames.

(** ** The index loops against the direct scan *)

Section Scan.
Context {num : Type} `{JsNumber num}.
Local Open Scope js_scope.

Lemma scan_inner (rest : list Particle) :
  forall (pre : list Particle) (pi : Particle) (i : nat),
    nth_error (pre ++ rest) i = Some pi ->
    map endpoints
        (flat_map (connectPair (pre ++ rest) i) (seq (length pre) (length rest)))
    = scanFrom i pi (length pre) rest.
Proof.
  induction rest as [|pj rest IH]; intros pre pi i Hi; [reflexivity|].
  cbn [length seq flat_map scanFrom]. rewrite map_app. f_equal.
  - unfold connectPair. rewrite Hi.
    rewrite nth_error_app2, Nat.sub_diag by lia. cbn [nth_error].
    destruct (_ <? _); reflexivity.
  - specialize (IH (pre ++ [pj]) pi i).
    rewrite <- app_assoc in IH. cbn [app] in IH.
    rewrite length_app in IH. cbn [length] in IH.
    replace (length pre + 1)%nat with (S (length pre)) in IH by lia.
    now apply IH.
Qed.

Lemma scan_outer (suf : list Particle) :
  forall pre : list Particle,
    map endpoints
        (flat_map
           (fun i =>
              flat_map (connectPair (pre ++ suf) i)
                       (seq (i + 1) (length (pre ++ suf) - (i + 1))))
           (seq (length pre) (length suf)))
    = directScan (length pre) suf.
Proof.
  induction suf as [|p rest IH]; intros pre; [reflexivity|].
  cbn [length seq flat_map directScan]. rewrite map_app. f_equal.
  - replace (length (pre ++ p :: rest) - (length pre + 1))%nat
      with (length rest) by (rewrite length_app; simpl; lia).
    pose proof (@scan_inner rest (pre ++ [p]) p (length pre)) as E.
    rewrite <- app_assoc in E. cbn [app] in E.
    rewrite length_app in E. cbn [length] in E.
    replace (length pre + 1)%nat with (S (length pre)) in * by lia. apply E.
    rewrite nth_error_app2, Nat.sub_diag by lia. reflexivity.
  - specialize (IH (pre ++ [p])).
    rewrite <- app_assoc in IH. cbn [app] in IH.
    replace (length (pre ++ [p])) with (S (length pre)) in IH
      by (rewrite length_app; simpl; lia).
    exact IH.
Qed.

(** The pairs that [updateConnections] lists are those of the direct scan,
    in the same order. *)
Lemma updateConnections_directScan (ps : list Particle) :
  map endpoints (updateConnections ps) = directScan 0 ps.
Proof. exact (scan_outer ps []). Qed.

End Scan.

(** C9.  Without a canvas, or without a 2D context, [animate] returns at
    once: the state (particles, connections, mouse) is the one it was
    called with, nothing is painted, no exception is raised and no next
    frame is requested. *)
Theorem animate_without_surface {num : Type} `{JsNumber num}
        (entropy : nat -> num) (st : State) :
  canvasRef st = None \/
  (exists canvas, canvasRef st = Some canvas /\ context2d canvas = false) ->
  animate entropy st = mkFrame st [] false false.
Proof.
  intros [E | (canvas & E & Hx)]; unfold animate; rewrite E; [reflexivity|].
  now rewrite Hx.
Qed.

Lemma animate_without_surface_witness :
  (canvasRef (mounted None) = None \/
   exists canvas, canvasRef (mounted None) = Some canvas /\ context2d canvas = false)
  /\ animate zeros (mounted None) = mkFrame (mounted None) [] false false.
Proof.
  split; [left; reflexivity|].
  apply (animate_without_surface zeros (mounted None)). left. reflexivity.
Defined.

(** C3, amended.  When the mouse has never moved, a frame changes the
    velocity of a particle in one way only: a component is multiplied by
    -1 when the advanced coordinate lies outside the canvas, and is left
    as it was otherwise.  Attraction and the pull to the origin stay out. *)
Theorem animate_unmoved_velocity {num : Type} `{JsNumber num}
        (entropy : nat -> num) (st : State) (canvas : Canvas) :
  canvasRef st = Some canvas -> context2d canvas = true ->
  moved (mouse st) = false ->
  Forall2
    (fun p q : Particle =>
       vx q = (if ((x p + vx p <? #0) || (x p + vx p >? widthOf canvas))%js
               then (vx p * #(-1))%js else vx p) /\
       vy q = (if ((y p + vy p <? #0) || (y p + vy p >? heightOf canvas))%js
               then (vy p * #(-1))%js else vy p))
    (particles st) (particles (after (animate entropy st))).
Proof.
  intros Hc Hx Hm. rewrite (animate_particles entropy st Hc Hx).
  induction (particles st) as [|p ps IH]; simpl; constructor; [|exact IH].
  unfold updateParticle, magnetism. rewrite Hm.
  apply (reflect_velocity (widthOf canvas) (heightOf canvas) (advance p)).
Qed.

(** C6, amended.  In a frame that raises nothing, the lines painted are
    those of the connection list the frame started with, drawn between the
    updated positions; the draw of [Math.random] comes after the painting,
    and when it is below 0.05 the graph built from the updated positions
    replaces the list for the frames that follow. *)
Theorem animate_paints_cached_graph {num : Type} `{JsNumber num}
        (entropy : nat -> num) (st : State) (canvas : Canvas)
        (lines : list DrawOp) :
  canvasRef st = Some canvas -> context2d canvas = true ->
  drawConnections
    (map (updateParticle (widthOf canvas) (heightOf canvas) (mouse st))
         (particles st))
    (connections st) = (lines, false) ->
  let ps := map (updateParticle (widthOf canvas) (heightOf canvas) (mouse st))
                (particles st) in
  let f := animate entropy st in
  particles (after f) = ps /\
  painted f
  = [FillRect #0%js #0%js (widthOf canvas) (heightOf canvas)]
      ++ lines ++ map drawParticle ps /\
  connections (after f)
  = (if (entropy (draws st) <? dec 5 2)%js
     then updateConnections ps else connections st) /\
  threw f = false /\ scheduled f = true.
Proof.
  intros Hc Hx Hd ps f. unfold f.
  rewrite (@animate_drawn _ _ entropy st canvas lines Hc Hx Hd).
  cbn. auto.
Qed.

(** ** Ideal arithmetic *)

Local Open Scope R_scope.

Lemma Rltb_true (a b : R) : a < b -> Rltb a b = true.
Proof. intros Hab. unfold Rltb. destruct (Rlt_dec a b); [reflexivity|lra]. Qed.

Lemma Rltb_false (a b : R) : b <= a -> Rltb a b = false.
Proof. intros Hab. unfold Rltb. destruct (Rlt_dec a b); [lra|reflexivity]. Qed.

(** [Math.floor] of a quotient of integers is the integer quotient. *)
Lemma Int_part_div (a b : Z) :
  (0 < b)%Z -> Int_part (IZR a / IZR b) = (a / b)%Z.
Proof.
  intros Hb. symmetry. apply Int_part_spec.
  pose proof (Z.mul_div_le a b Hb) as Hlo.
  pose proof (Z.mul_succ_div_gt a b Hb) as Hhi.
  apply IZR_le in Hlo. apply IZR_lt in Hhi.
  rewrite mult_IZR in Hlo, Hhi. rewrite succ_IZR in Hhi.
  assert (Hb' : 0 < IZR b) by (apply IZR_lt; lia).
  set (q := IZR a / IZR b).
  assert (Hq : IZR a = q * IZR b) by (unfold q; field; lra).
  rewrite Hq in Hlo, Hhi. split; nra.
Qed.

Lemma particleCount_R (W H : N) (ctx : bool) :
  particleCount (mkCanvas W H ctx) = N.to_nat (W * H / 8000).
Proof.
  unfold particleCount, widthOf, heightOf. cbn [width height].
  cbn [Math_floor R_number mul div num_of_Z].
  rewrite <- mult_IZR, Int_part_div by lia.
  rewrite <- (N2Z.inj_mul W H).
  change 8000%Z with (Z.of_N 8000). rewrite <- N2Z.inj_div.
  now rewrite <- Z_N_nat, N2Z.id.
Qed.

Lemma dec_R (m : Z) (e : nat) : dec m e = IZR m / IZR (10 ^ Z.of_nat e).
Proof. reflexivity. Qed.

(** Expose the real operations behind the number interface, with the
    decimal literals as quotients of integer constants. *)
Ltac js_real :=
  rewrite ?dec_R;
  repeat match goal with
         | |- context [(10 ^ Z.of_nat ?e)%Z] =>
             let v := eval vm_compute in (10 ^ Z.of_nat e)%Z in
             change (10 ^ Z.of_nat e)%Z with v
         end;
  cbn [add sub mul div ltb square Math_sqrt Math_cos Math_sin Math_atan2
       Math_floor num_of_Z R_number].

(** ** The particles at creation *)

Lemma createParticle_eq {num : Type} `{JsNumber num} (entropy : nat -> num)
      (cw ch : num) (n : nat) :
  createParticle entropy cw ch n
  = (mkParticle
       (entropy n * cw)%js (entropy (1 + n)%nat * ch)%js
       ((entropy (2 + n)%nat - dec 5 1) * dec 3 1)%js
       ((entropy (3 + n)%nat - dec 5 1) * dec 3 1)%js
       (entropy (4 + n)%nat * dec 25 1 + #1)%js
       (hsla (entropy (5 + n)%nat * #60 + #220)%js
             (entropy (6 + n)%nat * #30 + #70)%js
             (entropy (7 + n)%nat * #20 + #50)%js (dec 8 1))
       (entropy n * cw)%js (entropy (1 + n)%nat * ch)%js,
     (8 + n)%nat).
Proof. reflexivity. Qed.

Lemma times_S (A : Type) (m : Rand A) (count n : nat) :
  times (S count) m n
  = (let (a, n1) := m n in
     let (rest, n2) := times count m n1 in (a :: rest, n2)).
Proof. reflexivity. Qed.

Lemma times_spec (A : Type) (P : A -> Prop) (m : Rand A) :
  (forall n, P (fst (m n))) ->
  forall count n,
    length (fst (times count m n)) = count /\ Forall P (fst (times count m n)).
Proof.
  intros Hm. induction count as [|count IH]; intros n.
  - split; [reflexivity | constructor].
  - rewrite times_S. pose proof (Hm n) as Ha.
    destruct (m n) as [a n1]. destruct (IH n1) as [Hlen Hall].
    destruct (times count m n1) as [rest n2]. simpl in *.
    split; [now rewrite Hlen | now constructor].
Qed.

Lemma initialize_particles_eq {num : Type} `{JsNumber num}
      (entropy : nat -> num) (W H0 : N) (st : State) (canvas : Canvas) :
  canvasRef st = Some canvas ->
  let st' := initialize entropy W H0 st in
  particles st'
  = fst (createParticles entropy (mkCanvas W H0 (context2d canvas)) (draws st)) /\
  connections st' = updateConnections (particles st') /\
  canvasRef st' = Some (mkCanvas W H0 (context2d canvas)) /\
  mouse st' = mouse st.
Proof.
  intros Hc. unfold initialize. rewrite Hc.
  destruct (createParticles _ _ _) as [ps n]. simpl. auto.
Qed.

Lemma createParticle_asCreated (entropy : nat -> R) (W H : N) (n : nat) :
  unitDraws entropy -> (0 < W)%N -> (0 < H)%N ->
  asCreated W H
    (fst (createParticle entropy (IZR (Z.of_N W)) (IZR (Z.of_N H)) n)).
Proof.
  intros He HW HH. rewrite createParticle_eq. cbn [fst].
  assert (0 < IZR (Z.of_N W)) by (apply IZR_lt; lia).
  assert (0 < IZR (Z.of_N H)) by (apply IZR_lt; lia).
  pose proof (He n). pose proof (He (1 + n)%nat). pose proof (He (2 + n)%nat).
  pose proof (He (3 + n)%nat). pose proof (He (4 + n)%nat).
  unfold asCreated. cbn [x y vx vy radius originalX originalY].
  js_real. repeat split; try nra; lra.
Qed.

(** The particles that the mount effect creates for a canvas. *)
Lemma createParticles_created (entropy : nat -> R) (W H : N) (ctx : bool)
      (n : nat) :
  unitDraws entropy ->
  length (fst (createParticles entropy (mkCanvas W H ctx) n))
  = N.to_nat (W * H / 8000) /\
  Forall (asCreated W H) (fst (createParticles entropy (mkCanvas W H ctx) n)).
Proof.
  intros He. unfold createParticles. rewrite particleCount_R.
  unfold widthOf, heightOf. cbn [width height num_of_Z R_number].
  destruct (N.eq_dec (W * H / 8000) 0) as [E|E].
  - rewrite E. split; [reflexivity | constructor].
  - assert (0 < W /\ 0 < H)%N as [HW HH].
    { destruct (N.eq_dec W 0) as [->|]; [now rewrite N.mul_0_l in E|].
      destruct (N.eq_dec H 0) as [->|]; [now rewrite N.mul_0_r in E|]. lia. }
    apply times_spec. intros k. now apply createParticle_asCreated.
Qed.

(** C2.  For every window size [W] by [H], the mount effect creates
    exactly [floor(W*H/8000)] particles, each with its position in
    [0,W) x [0,H), its velocity components in [-0.15, 0.15], its radius in
    [1, 3.5] and its origin equal to its position. *)
Theorem initialize_particles (entropy : nat -> R) (W H : N)
        (st : State) (canvas : Canvas) :
  unitDraws entropy -> canvasRef st = Some canvas ->
  length (particles (initialize entropy W H st)) = N.to_nat (W * H / 8000) /\
  Forall (asCreated W H) (particles (initialize entropy W H st)).
Proof.
  intros He Hc.
  assert (Hp : particles (initialize entropy W H st)
               = fst (createParticles entropy
                                      (mkCanvas W H (context2d canvas))
                                      (draws st))).
  { unfold initialize. rewrite Hc.
    destruct (createParticles _ _ _) as [ps n]. reflexivity. }
  rewrite Hp. split.
  - apply createParticles_created. exact He.
  - apply createParticles_created. exact He.
Qed.

Lemma unitDraws_zeros : unitDraws zeros.
Proof. intros n. unfold zeros. js_real. lra. Qed.

Lemma unitDraws_skim : unitDraws skim.
Proof. intros [|[|[|n]]]; unfold skim; js_real; lra. Qed.

Lemma initialize_particles_witness :
  unitDraws zeros /\
  canvasRef (mounted (Some blankCanvas)) = Some blankCanvas /\
  length (particles (initialize zeros 800 600 (mounted (Some blankCanvas))))
  = N.to_nat (800 * 600 / 8000) /\
  Forall (asCreated 800 600)
         (particles (initialize zeros 800 600 (mounted (Some blankCanvas)))).
Proof.
  split; [exact unitDraws_zeros|]. split; [reflexivity|].
  apply (initialize_particles (entropy := zeros) 800 600
                              (mounted (Some blankCanvas))
                              unitDraws_zeros eq_refl).
Defined.

(** ** One particle, mouse still *)

Lemma updateParticle_unmoved {num : Type} `{JsNumber num}
      (cw ch : num) (m : Mouse) (p : Particle) :
  moved m = false ->
  updateParticle cw ch m p
  = mkParticle
      (x p + vx p)%js (y p + vy p)%js
      (if ((x p + vx p <? #0) || (x p + vx p >? cw))%js
       then (vx p * #(-1))%js else vx p)
      (if ((y p + vy p <? #0) || (y p + vy p >? ch))%js
       then (vy p * #(-1))%js else vy p)
      (radius p) (color p) (originalX p) (originalY p).
Proof.
  intros Hm. unfold updateParticle, magnetism. rewrite Hm.
  unfold reflect, advance, set_x, set_y, set_vx, set_vy. simpl.
  destruct ((x p + vx p <? #0) || (x p + vx p >? cw))%js; simpl;
    destruct ((y p + vy p <? #0) || (y p + vy p >? ch))%js; reflexivity.
Qed.

(** What the first two phases leave: the advanced position, the reflected
    velocity, the rest of the particle as it was. *)
Lemma reflect_advance_shape {num : Type} `{JsNumber num}
      (cw ch : num) (p : Particle) :
  reflect cw ch (advance p)
  = mkParticle
      (x p + vx p)%js (y p + vy p)%js
      (if ((x p + vx p <? #0) || (x p + vx p >? cw))%js
       then (vx p * #(-1))%js else vx p)
      (if ((y p + vy p <? #0) || (y p + vy p >? ch))%js
       then (vy p * #(-1))%js else vy p)
      (radius p) (color p) (originalX p) (originalY p).
Proof.
  unfold reflect, advance, set_x, set_y, set_vx, set_vy. simpl.
  destruct ((x p + vx p <? #0) || (x p + vx p >? cw))%js; simpl;
    destruct ((y p + vy p <? #0) || (y p + vy p >? ch))%js; reflexivity.
Qed.

(** C5.  In a frame that has a canvas and a context, every particle is
    stepped like this: the position advances by the velocity and the frame
    leaves it there, also when that is outside the canvas; the reflection
    then looks at the advanced coordinate: outside [0, width] the velocity
    component [rvx] that the step hands on to the mouse phase is the
    opposite of what it was (same magnitude), inside it is unchanged; the
    same for y and the height, each axis on its own; and while the mouse
    has not moved the reflected velocity is the velocity after the frame. *)
Theorem reflect_advanced_position (entropy : nat -> R) (st : State)
        (canvas : Canvas) :
  canvasRef st = Some canvas -> context2d canvas = true ->
  Forall2
    (fun p q : Particle =>
       x q = x p + vx p /\ y q = y p + vy p /\
       exists rvx rvy : R,
         q = magnetism (mouse st)
                       (mkParticle (x p + vx p) (y p + vy p) rvx rvy
                                   (radius p) (color p)
                                   (originalX p) (originalY p)) /\
         (x p + vx p < 0 \/ widthOf canvas < x p + vx p ->
          rvx = - vx p /\ Rabs rvx = Rabs (vx p)) /\
         (0 <= x p + vx p <= widthOf canvas -> rvx = vx p) /\
         (y p + vy p < 0 \/ heightOf canvas < y p + vy p ->
          rvy = - vy p /\ Rabs rvy = Rabs (vy p)) /\
         (0 <= y p + vy p <= heightOf canvas -> rvy = vy p) /\
         (moved (mouse st) = false -> vx q = rvx /\ vy q = rvy))
    (particles st) (particles (after (animate entropy st))).
Proof.
  intros Hc Hx. rewrite (animate_particles entropy st Hc Hx).
  generalize (widthOf canvas) (heightOf canvas) (mouse st). intros cw ch m.
  induction (particles st) as [|p ps IH]; [constructor|].
  cbn [map]. constructor; [clear IH | exact IH].
  assert (Hout : forall c v extent : R,
             c < 0 \/ extent < c ->
             (if Rltb c 0 || Rltb extent c then v * -1 else v) = - v).
  { intros c v extent [Hlo|Hhi].
    - rewrite (Rltb_true Hlo). cbn [orb]. lra.
    - rewrite (Rltb_true Hhi), orb_true_r. lra. }
  assert (Hin : forall c v extent : R,
             0 <= c <= extent ->
             (if Rltb c 0 || Rltb extent c then v * -1 else v) = v).
  { intros c v extent [Hlo Hhi]. now rewrite !Rltb_false. }
  destruct (updateParticle_position cw ch m p) as [Ex Ey].
  split; [exact Ex|]. split; [exact Ey|].
  unfold updateParticle. rewrite reflect_advance_shape.
  match goal with
  | |- context [mkParticle _ _ ?a ?b _ _ _ _] => exists a, b
  end.
  split; [reflexivity|]. js_real.
  split; [intros Ho; rewrite (Hout _ _ _ Ho); split;
          [reflexivity | apply Rabs_Ropp]|].
  split; [intros Hi; apply (Hin _ _ _ Hi)|].
  split; [intros Ho; rewrite (Hout _ _ _ Ho); split;
          [reflexivity | apply Rabs_Ropp]|].
  split; [intros Hi; apply (Hin _ _ _ Hi)|].
  intros Hm. unfold magnetism. rewrite Hm. split; reflexivity.
Qed.

(** ** Attraction and the speed limit *)

Lemma sqrt_lower (c z : R) : 0 <= c -> c * c <= z -> c <= sqrt z.
Proof.
  intros Hc Hz. rewrite <- (sqrt_square c Hc) at 1.
  apply sqrt_le_1; nra.
Qed.

Lemma sqrt_upper (c z : R) : 0 < c -> z < c * c -> sqrt z < c.
Proof.
  intros Hc Hz. destruct (Rle_lt_dec 0 z) as [Hpos|Hneg].
  - rewrite <- (sqrt_square c) at 1 by lra. apply sqrt_lt_1; nra.
  - rewrite sqrt_neg_0 by lra. exact Hc.
Qed.







(** ** The scenarios, evaluated *)

Lemma cornerField_particles :
  particles cornerField
  = [particleAt 0 0 (- (15 / 100)) (- (15 / 100)) 0 0].
Proof.
  unfold cornerField.
  destruct (initialize_particles_eq zeros 100 80 (mounted (Some blankCanvas))
                                    eq_refl) as (-> & _).
  unfold createParticles. rewrite particleCount_R.
  change (N.to_nat (100 * 80 / 8000)) with 1%nat.
  rewrite times_S, createParticle_eq. cbn [times ret fst].
  unfold zeros, particleAt, widthOf, heightOf. cbn [width height Z.of_N].
  js_real. repeat f_equal; lra.
Qed.

Lemma cornerField_surface :
  canvasRef cornerField = Some (mkCanvas 100 80 true) /\
  mouse cornerField = mkMouse 0 0 false.
Proof.
  unfold cornerField.
  destruct (initialize_particles_eq zeros 100 80 (mounted (Some blankCanvas))
                                    eq_refl) as (_ & _ & -> & ->).
  split; reflexivity.
Qed.

(** On [cornerField] the one particle advances to (-0.15, -0.15), outside
    the canvas on both axes, so both components are reflected. *)
Lemma reflect_advanced_position_witness :
  canvasRef cornerField = Some (mkCanvas 100 80 true) /\
  context2d (mkCanvas 100 80 true) = true /\
  map position (particles cornerField) = [(0, 0)] /\
  map velocity (particles cornerField) = [(- (15 / 100), - (15 / 100))] /\
  Forall2
    (fun p q : Particle =>
       x q = x p + vx p /\ y q = y p + vy p /\
       exists rvx rvy : R,
         q = magnetism (mouse cornerField)
                       (mkParticle (x p + vx p) (y p + vy p) rvx rvy
                                   (radius p) (color p)
                                   (originalX p) (originalY p)) /\
         (x p + vx p < 0 \/ widthOf (mkCanvas 100 80 true) < x p + vx p ->
          rvx = - vx p /\ Rabs rvx = Rabs (vx p)) /\
         (0 <= x p + vx p <= widthOf (mkCanvas 100 80 true) -> rvx = vx p) /\
         (y p + vy p < 0 \/ heightOf (mkCanvas 100 80 true) < y p + vy p ->
          rvy = - vy p /\ Rabs rvy = Rabs (vy p)) /\
         (0 <= y p + vy p <= heightOf (mkCanvas 100 80 true) -> rvy = vy p) /\
         (moved (mouse cornerField) = false -> vx q = rvx /\ vy q = rvy))
    (particles cornerField) (particles (after (animate zeros cornerField))).
Proof.
  split; [exact (proj1 cornerField_surface)|]. split; [reflexivity|].
  split; [now rewrite cornerField_particles|].
  split; [now rewrite cornerField_particles|].
  exact (@reflect_advanced_position zeros cornerField (mkCanvas 100 80 true)
                                    (proj1 cornerField_surface) eq_refl).
Defined.

(** C3 as stated fails: on the field [cornerField], which the mount effect
    creates, the mouse has never moved, and one frame turns the velocity
    (-0.15, -0.15) of the particle into (0.15, 0.15), because the advanced
    position (-0.15, -0.15) is outside the canvas. *)
Lemma velocity_flips_unmoved :
  moved (mouse cornerField) = false /\
  map velocity (particles cornerField) = [(- (15 / 100), - (15 / 100))] /\
  map velocity (particles (after (animate zeros cornerField)))
  = [(15 / 100, 15 / 100)] /\
  map velocity (particles (after (animate zeros cornerField)))
  <> map velocity (particles cornerField).
Proof.
  destruct cornerField_surface as [Hc Hm].
  assert (Hv : map velocity (particles (after (animate zeros cornerField)))
               = [(15 / 100, 15 / 100)]).
  { rewrite (animate_particles zeros cornerField Hc eq_refl).
    rewrite cornerField_particles, Hm. cbn [map].
    rewrite updateParticle_unmoved by reflexivity.
    unfold velocity, particleAt. cbn [x y vx vy]. js_real.
    rewrite (@Rltb_true (0 + - (15 / 100)) 0) by lra. cbn [orb].
    do 2 f_equal; lra. }
  split; [now rewrite Hm|]. split; [now rewrite cornerField_particles|].
  split; [exact Hv|].
  rewrite Hv, cornerField_particles. cbn [map velocity particleAt vx vy].
  intros E. injection E as E _. lra.
Qed.

Lemma animate_unmoved_velocity_witness :
  canvasRef approaching = Some viewport /\ context2d viewport = true /\
  moved (mouse approaching) = false /\
  Forall2
    (fun p q : Particle =>
       vx q = (if ((x p + vx p <? #0) || (x p + vx p >? widthOf viewport))%js
               then (vx p * #(-1))%js else vx p) /\
       vy q = (if ((y p + vy p <? #0) || (y p + vy p >? heightOf viewport))%js
               then (vy p * #(-1))%js else vy p))
    (particles approaching) (particles (after (animate zeros approaching))).
Proof.
  split; [reflexivity|]. split; [reflexivity|]. split; [reflexivity|].
  apply (animate_unmoved_velocity zeros approaching eq_refl eq_refl eq_refl).
Defined.

(** ** The empty field *)

Lemma animate_empty {num : Type} `{JsNumber num} (entropy : nat -> num)
      (st : State) :
  particles st = [] -> connections st = [] ->
  threw (animate entropy st) = false /\
  particles (after (animate entropy st)) = [] /\
  connections (after (animate entropy st)) = [].
Proof.
  intros Hp Hk. unfold animate.
  destruct (canvasRef st) as [canvas|]; [|auto].
  destruct (context2d canvas); [|auto].
  rewrite Hp, Hk. cbn. destruct (_ <? _)%js; auto.
Qed.

(** C8.  When the window has no area, the mount effect leaves no particle
    and no connection, and from there every call of [animate], however
    many came before, raises nothing and leaves both arrays empty. *)
Theorem zero_area_viewport (entropy : nat -> R) (W H : N)
        (st : State) (canvas : Canvas) :
  canvasRef st = Some canvas -> (W = 0 \/ H = 0)%N ->
  particles (initialize entropy W H st) = [] /\
  connections (initialize entropy W H st) = [] /\
  forall k : nat,
    particles (afterFrames entropy k (initialize entropy W H st)) = [] /\
    connections (afterFrames entropy k (initialize entropy W H st)) = [] /\
    threw (animate entropy (afterFrames entropy k (initialize entropy W H st)))
    = false.
Proof.
  intros Hc Hz.
  destruct (initialize_particles_eq entropy W H st Hc) as (Hp & Hk & _).
  assert (Hp0 : particles (initialize entropy W H st) = []).
  { rewrite Hp. unfold createParticles. rewrite particleCount_R.
    replace (W * H)%N with 0%N by (destruct Hz; subst; lia). reflexivity. }
  assert (Hk0 : connections (initialize entropy W H st) = []).
  { rewrite Hk, Hp0. reflexivity. }
  split; [exact Hp0|]. split; [exact Hk0|].
  assert (Hall : forall k,
             particles (afterFrames entropy k (initialize entropy W H st)) = [] /\
             connections (afterFrames entropy k (initialize entropy W H st)) = []).
  { induction k as [|k [IHp IHk]]; [now split|].
    unfold afterFrames in *. cbn [Nat.iter].
    destruct (animate_empty entropy _ IHp IHk) as (_ & ? & ?). now split. }
  intros k. destruct (Hall k) as [Hpk Hkk].
  split; [exact Hpk|]. split; [exact Hkk|].
  now destruct (animate_empty entropy _ Hpk Hkk).
Qed.

Lemma zero_area_viewport_witness :
  canvasRef (mounted (Some blankCanvas)) = Some blankCanvas /\
  (0 = 0 \/ 600 = 0)%N /\
  particles (initialize zeros 0 600 (mounted (Some blankCanvas))) = [] /\
  connections (initialize zeros 0 600 (mounted (Some blankCanvas))) = [] /\
  forall k : nat,
    particles (afterFrames zeros k (initialize zeros 0 600 (mounted (Some blankCanvas)))) = [] /\
    connections (afterFrames zeros k (initialize zeros 0 600 (mounted (Some blankCanvas)))) = [] /\
    threw (animate zeros (afterFrames zeros k (initialize zeros 0 600 (mounted (Some blankCanvas)))))
    = false.
Proof.
  split; [reflexivity|]. split; [left; reflexivity|].
  apply (zero_area_viewport zeros (W := 0) (H := 600)
                            (mounted (Some blankCanvas))
                            eq_refl (or_introl eq_refl)).
Defined.

(** ** The frame of the rebuild *)

Lemma updateConnections_two {num : Type} `{JsNumber num} (a b : Particle) :
  updateConnections [a; b]
  = (if (pairDistance a b <? #150)%js
     then [mkConnection 0 1 (pairDistance a b)] else []).
Proof.
  unfold updateConnections. cbn. destruct (_ <? _)%js; reflexivity.
Qed.

Lemma approaching_moved :
  map (updateParticle (widthOf viewport) (heightOf viewport)
                      (mouse (approaching (num := R))))
      (particles approaching)
  = [particleAt (0 + 1 / 10) (100 + 0) (1 / 10) 0 0 100;
     particleAt (15005 / 100 + IZR (-1) / 10) (100 + 0) (IZR (-1) / 10) 0
                (15005 / 100) 100].
Proof.
  unfold approaching, viewport, widthOf, heightOf.
  cbn [particles mouse map width height Z.of_N].
  rewrite !updateParticle_unmoved by reflexivity.
  unfold particleAt. cbn [x y vx vy radius color originalX originalY]. js_real.
  rewrite (@Rltb_false (0 + 1 / 10) 0), (@Rltb_false 800 (0 + 1 / 10)) by lra.
  rewrite (@Rltb_false (100 + 0) 0), (@Rltb_false 600 (100 + 0)) by lra.
  rewrite (@Rltb_false (15005 / 100 + IZR (-1) / 10) 0),
          (@Rltb_false 800 (15005 / 100 + IZR (-1) / 10)) by lra.
  reflexivity.
Qed.

(** C6 as stated fails: on [approaching] the draw is below 0.05, so the
    rebuild fires, and the graph of the updated positions has the
    connection 0-1, which would be painted as a line; but the frame paints
    no line at all, because it painted from the list it started with (empty,
    as the positions before the frame were 150.05 apart) and rebuilt
    afterwards. *)
Lemma rebuild_after_painting :
  connections (approaching (num := R))
  = updateConnections (particles approaching) /\
  (zeros (draws approaching) <? dec 5 2)%js = true /\
  scheduled (animate zeros approaching) = true /\
  connections (after (animate zeros approaching))
  = updateConnections (particles (after (animate zeros approaching))) /\
  (exists line,
      drawConnections
        (particles (after (animate zeros approaching)))
        (updateConnections (particles (after (animate zeros approaching))))
      = ([line], false)) /\
  strokes (painted (animate zeros approaching)) = [].
Proof.
  assert (Hfire : (zeros (draws approaching) <? dec 5 2)%js = true).
  { unfold zeros. js_real. apply Rltb_true. lra. }
  assert (Hd : drawConnections
                 (map (updateParticle (widthOf viewport) (heightOf viewport)
                                      (mouse approaching))
                      (particles approaching))
                 (connections approaching) = ([], false)) by reflexivity.
  pose proof (@animate_drawn _ _ zeros approaching viewport [] eq_refl eq_refl Hd)
    as Ha.
  cbv zeta in Ha. rewrite Hfire in Ha. rewrite Ha.
  cbn [after scheduled painted particles connections].
  rewrite approaching_moved.
  set (a' := particleAt (0 + 1 / 10) (100 + 0) (1 / 10) 0 0 100).
  set (b' := particleAt (15005 / 100 + IZR (-1) / 10) (100 + 0)
                        (IZR (-1) / 10) 0 (15005 / 100) 100).
  assert (Hnear : pairDistance a' b' < 150).
  { unfold pairDistance, a', b', particleAt. cbn [x y]. js_real.
    apply sqrt_upper; lra. }
  split.
  - unfold approaching. cbn [particles connections].
    rewrite updateConnections_two. js_real.
    rewrite (@Rltb_false _ 150); [reflexivity|].
    unfold pairDistance, particleAt. cbn [x y]. js_real.
    apply sqrt_lower; lra.
  - split; [exact Hfire|]. split; [reflexivity|]. split; [reflexivity|].
    split; [|reflexivity].
    rewrite updateConnections_two.
    change (pairDistance a' b' <? #150)%js with (Rltb (pairDistance a' b') 150).
    rewrite (Rltb_true Hnear).
    cbn [drawConnections]. unfold drawConnection.
    cbn [from to distance nth_error]. js_real.
    rewrite (@Rltb_true 0 (1 - pairDistance a' b' / 150)) by lra.
    eexists. reflexivity.
Qed.

Lemma animate_paints_cached_graph_witness :
  canvasRef approaching = Some viewport /\ context2d viewport = true /\
  drawConnections
    (map (updateParticle (widthOf viewport) (heightOf viewport) (mouse approaching))
         (particles approaching))
    (connections approaching) = ([], false) /\
  let ps := map (updateParticle (widthOf viewport) (heightOf viewport)
                                (mouse approaching))
                (particles approaching) in
  let f := animate zeros approaching in
  particles (after f) = ps /\
  painted f
  = [FillRect #0%js #0%js (widthOf viewport) (heightOf viewport)]
      ++ [] ++ map drawParticle ps /\
  connections (after f)
  = (if (zeros (draws approaching) <? dec 5 2)%js
     then updateConnections ps else connections approaching) /\
  threw f = false /\ scheduled f = true.
Proof.
  split; [reflexivity|]. split; [reflexivity|]. split; [reflexivity|].
  apply (@animate_paints_cached_graph _ _ zeros approaching viewport []
                                      eq_refl eq_refl eq_refl).
Defined.

(** ** A thousand frames with the mouse still *)

Lemma returning_step (a extent c v : R) :
  returning a extent c v ->
  returning a extent (c + v)
            (if Rltb (c + v) 0 || Rltb extent (c + v) then v * -1 else v).
Proof.
  unfold returning, Rltb. intros (Hv & Hlo & Hhi).
  destruct (Rlt_dec (c + v) 0); destruct (Rlt_dec extent (c + v));
    cbn [orb]; repeat split; intros; try lra;
    (destruct (Rlt_dec c 0) as [Hc|Hc]; [specialize (Hlo Hc)|]);
    (destruct (Rlt_dec extent c) as [He|He]; [specialize (Hhi He)|]); lra.
Qed.

Lemma returning_bounds (a extent c v : R) :
  returning a extent c v -> - a <= c <= extent + a.
Proof.
  unfold returning. intros (Hv & Hlo & Hhi). split.
  - destruct (Rlt_dec c 0); [specialize (Hlo ltac:(assumption))|]; lra.
  - destruct (Rlt_dec extent c); [specialize (Hhi ltac:(assumption))|]; lra.
Qed.

Lemma settled_step (a cw ch : R) (m : Mouse) (p : Particle) :
  moved m = false -> settled a cw ch p ->
  settled a cw ch (updateParticle cw ch m p).
Proof.
  intros Hm [Hx Hy]. rewrite (updateParticle_unmoved cw ch m p Hm).
  unfold settled. cbn [x y vx vy]. js_real.
  split; apply returning_step; assumption.
Qed.

Lemma settled_iter (a cw ch : R) (m : Mouse) (p : Particle) (k : nat) :
  moved m = false -> settled a cw ch p ->
  settled a cw ch (Nat.iter k (updateParticle cw ch m) p).
Proof.
  intros Hm Hp. induction k as [|k IH]; [exact Hp|].
  cbn [Nat.iter nat_rect]. now apply settled_step.
Qed.

Lemma asCreated_settled (p : Particle) :
  asCreated 800 600 p -> settled (15 / 100) 800 600 p.
Proof.
  unfold asCreated, settled, returning. cbn [Z.of_N].
  intros (Hx & Hy & Hvx & Hvy & _). repeat split; intros; lra.
Qed.

Lemma settled_nearViewport (p : Particle) :
  settled (15 / 100) 800 600 p -> nearViewport p.
Proof.
  intros [Hx Hy]. apply returning_bounds in Hx, Hy. unfold nearViewport. lra.
Qed.

(** A particle that moves left keeps its velocity as long as it has not
    crossed the left edge. *)
Lemma coast (cw ch : R) (m : Mouse) (p : Particle) (k : nat) :
  moved m = false -> vx p <= 0 -> x p <= cw ->
  0 <= x p + INR k * vx p ->
  x (Nat.iter k (updateParticle cw ch m) p) = x p + INR k * vx p /\
  vx (Nat.iter k (updateParticle cw ch m) p) = vx p.
Proof.
  intros Hm Hv Hcw. induction k as [|k IH]; intros Hk.
  - cbn [Nat.iter nat_rect INR]. split; lra.
  - rewrite S_INR in *. pose proof (pos_INR k) as Hpos.
    destruct IH as [IHx IHv]; [nra|].
    change (Nat.iter (S k) (updateParticle cw ch m) p)
      with (updateParticle cw ch m (Nat.iter k (updateParticle cw ch m) p)).
    rewrite (updateParticle_unmoved cw ch m _ Hm). cbn [x vx]. js_real.
    rewrite IHx, IHv.
    rewrite (@Rltb_false (x p + INR k * vx p + vx p) 0) by lra.
    rewrite (@Rltb_false cw (x p + INR k * vx p + vx p)) by nra.
    cbn [orb]. split; lra.
Qed.

Lemma skimField_facts :
  canvasRef skimField = Some viewport /\
  mouse skimField = mkMouse 0 0 false /\
  connections skimField = updateConnections (particles skimField) /\
  length (particles skimField) = 60%nat /\
  exists p0 rest,
    particles skimField = p0 :: rest /\
    x p0 = 1499 / 8000 * 800 /\ vx p0 = (0 - 5 / 10) * (3 / 10).
Proof.
  unfold skimField.
  destruct (initialize_particles_eq skim 800 600 (mounted (Some blankCanvas))
                                    eq_refl) as (Hp & Hk & Hc & Hm).
  split; [exact Hc|]. split; [exact Hm|]. split; [exact Hk|].
  rewrite Hp. unfold createParticles. rewrite particleCount_R.
  change (N.to_nat (800 * 600 / 8000)) with 60%nat.
  split.
  - apply (times_spec (fun _ => True)). intros; exact I.
  - rewrite times_S, createParticle_eq.
    destruct (times 59 _ _) as [rest n]. cbn [fst].
    eexists. exists rest. split; [reflexivity|].
    unfold widthOf, heightOf. cbn [x vx width height Z.of_N skim]. js_real.
    split; reflexivity.
Qed.

(** C7 as stated fails: under the draws [skim], which lie in [0, 1), the
    mount effect on a window of 800 by 600 creates 60 particles, the first
    at x = 149.9 with vx = -0.15; the mouse never moves; the thousand
    frames all run; and after them that particle is at x = -0.1, outside
    [0, 800]. *)
Lemma skimField_leaves_canvas :
  unitDraws skim /\
  moved (mouse skimField) = false /\
  length (particles skimField) = 60%nat /\
  exists st' p,
    steps skim 1000 skimField = Some st' /\
    In p (particles st') /\ x p = - (1 / 10) /\ x p < 0.
Proof.
  destruct skimField_facts as (Hc & Hm & Hk & Hlen & p0 & rest & Hp & Hx & Hv).
  split; [exact unitDraws_skim|]. split; [now rewrite Hm|].
  split; [exact Hlen|].
  destruct (@steps_total _ _ skim 1000 skimField viewport Hc eq_refl)
    as (st' & Hs & _ & _ & Hps & _).
  { rewrite Hk. apply updateConnections_inRange. }
  exists st'.
  exists (Nat.iter 1000 (updateParticle (widthOf viewport) (heightOf viewport)
                                        (mouse skimField)) p0).
  split; [exact Hs|]. split; [rewrite Hps, Hp; now left|].
  rewrite Hm. unfold viewport, widthOf, heightOf. cbn [width height Z.of_N].
  js_real.
  change (Nat.iter 1000 (updateParticle 800 600 (mkMouse 0 0 false)) p0)
    with (updateParticle 800 600 (mkMouse 0 0 false)
            (Nat.iter 999 (updateParticle 800 600 (mkMouse 0 0 false)) p0)).
  rewrite updateParticle_unmoved by reflexivity. cbn [x].
  assert (H999 : INR 999 = 999).
  { rewrite INR_IZR_INZ. reflexivity. }
  destruct (@coast 800 600 (mkMouse 0 0 false) p0 999) as [Ex Ev];
    try (rewrite ?H999, ?Hx, ?Hv; lra); [reflexivity|].
  js_real. rewrite Ex, Ev, H999, Hx, Hv. split; lra.
Qed.

(** C7, amended.  On a window of 800 by 600 the mount effect creates
    exactly 60 particles; if the mouse never moves, the thousand frames
    that follow all run, and after them every particle lies within one move
    of the canvas, in [-0.15, 800.15] x [-0.15, 600.15]; and the graph
    rebuilt from these positions lists the pairs of the direct all-pairs
    scan. *)
Theorem viewport_800_600 (entropy : nat -> R) (st : State) (canvas : Canvas) :
  unitDraws entropy ->
  canvasRef st = Some canvas -> context2d canvas = true ->
  moved (mouse st) = false ->
  length (particles (initialize entropy 800 600 st)) = 60%nat /\
  exists st',
    steps entropy 1000 (initialize entropy 800 600 st) = Some st' /\
    Forall nearViewport (particles st') /\
    map endpoints (updateConnections (particles st'))
    = directScan 0 (particles st').
Proof.
  intros He Hc Hx Hm.
  destruct (initialize_particles_eq entropy 800 600 st Hc)
    as (Hps0 & Hk & Hc' & Hm').
  destruct (@createParticles_created entropy 800 600 (context2d canvas)
                                     (draws st) He) as [Hlen Hall].
  rewrite <- Hps0 in Hlen, Hall.
  rewrite Hx in Hc'.
  split; [exact Hlen|].
  destruct (@steps_total _ _ entropy 1000 (initialize entropy 800 600 st)
                         _ Hc' eq_refl)
    as (st' & Hs & _ & _ & Hps & _).
  { rewrite Hk. apply updateConnections_inRange. }
  exists st'. split; [exact Hs|].
  split; [|apply updateConnections_directScan].
  rewrite Hps, Hm'. apply Forall_map.
  revert Hall. apply Forall_impl. intros p Hp.
  apply settled_nearViewport.
  unfold widthOf, heightOf. cbn [width height Z.of_N]. js_real.
  apply settled_iter; [exact Hm|]. now apply asCreated_settled.
Qed.

Lemma viewport_800_600_witness :
  unitDraws zeros /\
  canvasRef (mounted (Some blankCanvas)) = Some blankCanvas /\
  context2d blankCanvas = true /\
  moved (mouse (mounted (Some blankCanvas))) = false /\
  length (particles (initialize zeros 800 600 (mounted (Some blankCanvas))))
  = 60%nat /\
  exists st',
    steps zeros 1000 (initialize zeros 800 600 (mounted (Some blankCanvas)))
    = Some st' /\
    Forall nearViewport (particles st') /\
    map endpoints (updateConnections (particles st'))
    = directScan 0 (particles st').
Proof.
  split; [exact unitDraws_zeros|]. split; [reflexivity|].
  split; [reflexivity|]. split; [reflexivity|].
  apply (@viewport_800_600 zeros (mounted (Some blankCanvas)) blankCanvas
                           unitDraws_zeros eq_refl eq_refl eq_refl).
Defined.

(** ** The scenarios in binary64 *)

(** The scenarios that refute C3, C4, C6 and C7 as stated, run on the
    numbers the engine has.  None of them reaches the attraction branch, so
    the results hold whatever [Math.cos], [Math.sin] and [Math.atan2] are. *)

Section Binary64.
Variables cos64 sin64 : PrimFloat.float -> PrimFloat.float.
Variable atan2_64 : PrimFloat.float -> PrimFloat.float -> PrimFloat.float.
#[local] Instance B64 : JsNumber PrimFloat.float :=
  binary64 cos64 sin64 atan2_64.
Local Open Scope js_scope.

(** [Math.floor] and the literals compute. *)
Example particleCount_binary64 :
  @particleCount _ B64 (mkCanvas 800 600 true) = 60%nat /\
  @particleCount _ B64 (mkCanvas 100 80 true) = 1%nat /\
  @particleCount _ B64 (mkCanvas 0 600 true) = 0%nat /\
  @particleCount _ B64 (mkCanvas 1919 1079 true) = 258%nat.
Proof. vm_compute. repeat split. Qed.

(** C3: the velocity of the particle of [cornerField] changes sign in one
    frame with the mouse still. *)
Example velocity_flips_binary64 :
  map velocity (particles (@cornerField _ B64))
  = [(@dec _ B64 (-15) 2, @dec _ B64 (-15) 2)] /\
  map velocity (particles (after (@animate _ B64 zeros (@cornerField _ B64))))
  = [(@dec _ B64 15 2, @dec _ B64 15 2)].
Proof. vm_compute. split; reflexivity. Qed.

(** C4: outside the magnetic radius the speed after the frame is above 5. *)
Example speed_unlimited_binary64 :
  (#5 <? @speed _ B64 (@updateParticle _ B64 #800 #600 overOrigin dragged)) = true.
Proof. vm_compute. reflexivity. Qed.

(** C6: the frame that rebuilds the graph of [approaching] stores one
    connection and has painted no line. *)
Example rebuild_after_painting_binary64 :
  connections (@approaching _ B64) = updateConnections (particles (@approaching _ B64)) /\
  scheduled (@animate _ B64 zeros (@approaching _ B64)) = true /\
  map endpoints (connections (after (@animate _ B64 zeros (@approaching _ B64))))
  = [(0%nat, 1%nat)] /\
  strokes (painted (@animate _ B64 zeros (@approaching _ B64))) = [].
Proof. vm_compute. repeat split. Qed.

(** C7: sixty particles, a thousand frames, and the first particle ends
    left of the canvas. *)
Example skimField_leaves_canvas_binary64 :
  length (particles (@skimField _ B64)) = 60%nat /\
  option_map
    (fun st => hd_error (map (fun p => x p <? #0) (particles st)))
    (@steps _ B64 skim 1000 (@skimField _ B64))
  = Some (Some true).
Proof. vm_compute. split; reflexivity. Qed.

End Binary64.

(** * Further results *)

(** ** The size and the order of the graph *)

Section GraphSize.
Context {num : Type} `{JsNumber num}.
Local Open Scope js_scope.

Lemma scanFrom_length (i : nat) (pi : Particle) (rest : list Particle) :
  forall j, (length (scanFrom i pi j rest) <= length rest)%nat.
Proof.
  induction rest as [|pj rest IH]; intros j; [apply Nat.le_refl|].
  cbn [scanFrom]. rewrite length_app. specialize (IH (S j)).
  destruct (_ <? _); simpl; lia.
Qed.

Lemma directScan_length (ps : list Particle) :
  forall i, (2 * length (directScan i ps) <= length ps * (length ps - 1))%nat.
Proof.
  induction ps as [|p rest IH]; intros i; [simpl; lia|].
  cbn [directScan]. rewrite length_app.
  pose proof (scanFrom_length i p rest (S i)) as Hs.
  specialize (IH (S i)). cbn [length].
  destruct (length rest) as [|m]; [simpl in *; lia|].
  replace (S (S m) - 1)%nat with (S m) by lia.
  replace (S m - 1)%nat with m in IH by lia. nia.
Qed.

(** X1.  The graph of [n] particles has at most [n (n - 1) / 2] connections; in
    particular none for an empty array or a single particle. *)
Theorem updateConnections_size (ps : list Particle) :
  (2 * length (updateConnections ps) <= length ps * (length ps - 1))%nat.
Proof.
  rewrite <- (length_map endpoints), updateConnections_directScan.
  apply directScan_length.
Qed.

End GraphSize.

(** ** What a frame keeps *)

Section Kept.
Context {num : Type} `{JsNumber num}.
Variable entropy : nat -> num.
Local Open Scope js_scope.

Lemma updateParticle_sameMake (cw ch : num) (m : Mouse) (p : Particle) :
  sameMake p (updateParticle cw ch m p).
Proof.
  unfold sameMake, updateParticle, magnetism, reflect, advance.
  repeat match goal with |- context [if ?b then _ else _] => destruct b end;
    simpl; auto.
Qed.

Lemma sameMake_refl (ps : list (@Particle num)) : Forall2 sameMake ps ps.
Proof. induction ps; constructor; unfold sameMake; auto. Qed.

Lemma sameMake_trans (ps qs rs : list (@Particle num)) :
  Forall2 sameMake ps qs -> Forall2 sameMake qs rs -> Forall2 sameMake ps rs.
Proof.
  intros Hpq. revert rs. induction Hpq as [|p q ps qs Hp _ IH]; intros rs Hqr.
  - inversion Hqr. constructor.
  - inversion Hqr as [|q' r qs' rs' Hq Hrest]; subst. constructor.
    + unfold sameMake in *. intuition congruence.
    + now apply IH.
Qed.

(** A call of [animate] either leaves the particles alone or moves each of
    them. *)
Lemma animate_particles_cases (st : State) :
  particles (after (animate entropy st)) = particles st \/
  exists canvas,
    canvasRef st = Some canvas /\ context2d canvas = true /\
    particles (after (animate entropy st))
    = map (updateParticle (widthOf canvas) (heightOf canvas) (mouse st))
          (particles st).
Proof.
  destruct (canvasRef st) as [canvas|] eqn:Hc.
  - destruct (context2d canvas) eqn:Hx.
    + right. exists canvas. repeat split; trivial.
      now apply animate_particles.
    + left. unfold animate. now rewrite Hc, Hx.
  - left. unfold animate. now rewrite Hc.
Qed.

Lemma animate_sameMake (st : State) :
  Forall2 sameMake (particles st) (particles (after (animate entropy st))).
Proof.
  destruct (animate_particles_cases st) as [->|(canvas & _ & _ & ->)].
  - apply sameMake_refl.
  - induction (particles st) as [|p ps IH]; simpl; constructor; trivial.
    apply updateParticle_sameMake.
Qed.

(** X6.  However many frames run, and whatever the mouse does to the
    velocities, the particles stay the same in number and each keeps its
    radius, its colour and its origin. *)
Theorem frames_keep_make (k : nat) (st : State) :
  length (particles (afterFrames entropy k st)) = length (particles st) /\
  Forall2 sameMake (particles st) (particles (afterFrames entropy k st)).
Proof.
  assert (Hall : Forall2 sameMake (particles st)
                         (particles (afterFrames entropy k st))).
  { induction k as [|k IH]; [apply sameMake_refl|].
    unfold afterFrames in *. cbn [Nat.iter nat_rect].
    eapply sameMake_trans; [exact IH | apply animate_sameMake]. }
  split; [|exact Hall].
  symmetry. eapply Forall2_length. exact Hall.
Qed.

(** X7.  A call of [animate] writes neither the mouse record nor the canvas
    ref, it makes one draw of [Math.random] when it runs to its end and
    none otherwise, and it asks for the next frame exactly when it neither
    returned early nor raised. *)
Theorem animate_footprint (st : State) :
  mouse (after (animate entropy st)) = mouse st /\
  canvasRef (after (animate entropy st)) = canvasRef st /\
  draws (after (animate entropy st))
  = (if scheduled (animate entropy st) then S (draws st) else draws st) /\
  (scheduled (animate entropy st) = true <->
   (exists canvas, canvasRef st = Some canvas /\ context2d canvas = true) /\
   threw (animate entropy st) = false).
Proof.
  unfold animate. destruct (canvasRef st) as [canvas|] eqn:Hc.
  - destruct (context2d canvas) eqn:Hx; cbn [negb].
    + destruct (drawConnections _ _) as [lines [|]]; cbn.
      * repeat split; trivial; try discriminate. intros [_ ?]. discriminate.
      * repeat split; trivial. now exists canvas.
    + cbn. repeat split; trivial; try discriminate.
      intros [(canvas' & E & Hx') _]. congruence.
  - cbn. repeat split; trivial; try discriminate.
    intros [(canvas' & E & _) _]. discriminate.
Qed.

(** ** When a frame raises *)

(** The loop over the connections, in full: it raises at the first
    dangling connection, with the lines of the connections before it
    stroked; without a dangling connection it strokes the line of every
    connection it would draw, in the order of the list. *)
Lemma drawConnections_spec (ps : list Particle) (conns : list Connection) :
  (Forall (fun c => ~ dangling (length ps) c) conns ->
   exists lines,
     drawConnections ps conns = (lines, false) /\
     Forall2 (lineOf ps) (filter visible conns) lines) /\
  (forall (before later : list Connection) (bad : Connection),
      conns = before ++ bad :: later ->
      Forall (fun c => ~ dangling (length ps) c) before ->
      dangling (length ps) bad ->
      exists lines,
        drawConnections ps conns = (lines, true) /\
        Forall2 (lineOf ps) (filter visible before) lines).
Proof.
  assert (Hone : forall c : Connection,
             ~ dangling (length ps) c ->
             (visible c = false /\ drawConnection ps c = Some []) \/
             (visible c = true /\
              exists op, drawConnection ps c = Some [op] /\ lineOf ps c op)).
  { intros c Hc. unfold drawConnection. fold (visible c).
    destruct (visible c) eqn:Hv; [right | left; auto].
    split; [reflexivity|].
    destruct (nth_error ps (from c)) as [p1|] eqn:E1.
    - destruct (nth_error ps (to c)) as [p2|] eqn:E2.
      + eexists. split; [reflexivity|]. exists p1, p2. auto.
      + exfalso. apply Hc. split; [exact Hv|]. right. now apply nth_error_None.
    - exfalso. apply Hc. split; [exact Hv|]. left. now apply nth_error_None. }
  assert (Hbad : forall c : Connection,
             dangling (length ps) c -> drawConnection ps c = None).
  { intros c [Hv Hc]. unfold drawConnection. fold (visible c). rewrite Hv.
    destruct Hc as [Hc|Hc]; apply nth_error_None in Hc; rewrite Hc;
      [reflexivity | now destruct (nth_error ps (from c))]. }
  split.
  - induction 1 as [|c conns Hc _ (lines & IH & Hl)].
    + exists []. split; [reflexivity | constructor].
    + cbn [drawConnections filter].
      destruct (Hone c Hc) as [(Hv & ->)|(Hv & op & -> & Hop)];
        rewrite Hv, IH.
      * exists lines. auto.
      * exists (op :: lines). split; [reflexivity|]. now constructor.
  - intros before later bad ->. induction 1 as [|c before Hc _ IH]; intros Hd.
    + cbn [app drawConnections filter]. rewrite (Hbad bad Hd).
      exists []. split; [reflexivity | constructor].
    + destruct (IH Hd) as (lines & E & Hl).
      cbn [app drawConnections filter]. rewrite E.
      destruct (Hone c Hc) as [(Hv & ->)|(Hv & op & -> & Hop)]; rewrite Hv.
      * exists lines. auto.
      * exists (op :: lines). split; [reflexivity|]. now constructor.
Qed.

Lemma dangling_dec (n : nat) (c : Connection) :
  {dangling n c} + {~ dangling n c}.
Proof.
  unfold dangling. destruct (visible c).
  - destruct (le_dec n (from c)); [left; auto|].
    destruct (le_dec n (to c)); [left; auto|].
    right. intros [_ [?|?]]; contradiction.
  - right. intros [? _]. discriminate.
Qed.

(** A list with a dangling connection, cut at the first one. *)
Lemma first_dangling (n : nat) (conns : list Connection) :
  Exists (dangling n) conns ->
  exists before bad later,
    conns = before ++ bad :: later /\
    Forall (fun c => ~ dangling n c) before /\ dangling n bad.
Proof.
  induction conns as [|c conns IH]; intros E; [inversion E|].
  destruct (dangling_dec n c) as [Hc|Hc].
  - exists [], c, conns. repeat split; [constructor | apply Hc..].
  - apply Exists_cons in E as [E|E]; [contradiction|].
    destruct (IH E) as (before & bad & later & -> & Hb & Hd).
    exists (c :: before), bad, later. split; [reflexivity|].
    split; [now constructor | exact Hd].
Qed.

Lemma raised_iff_dangling (ps : list Particle) (conns : list Connection) :
  snd (drawConnections ps conns) = true <->
  Exists (dangling (length ps)) conns.
Proof.
  destruct (drawConnections_spec ps conns) as [Hok Hraise]. split.
  - intros Hr. destruct (Exists_dec (dangling (length ps)) conns
                                    (dangling_dec (length ps))) as [E|E];
      [exact E|].
    apply Forall_Exists_neg in E. destruct (Hok E) as (lines & Hd & _).
    rewrite Hd in Hr. discriminate.
  - intros E. apply first_dangling in E as (before & bad & later & E & Hb & Hd).
    destruct (Hraise before later bad E Hb Hd) as (lines & -> & _). reflexivity.
Qed.

Lemma drawConnections_done (ps : list Particle) (conns : list Connection)
      (lines : list DrawOp) :
  drawConnections ps conns = (lines, false) ->
  Forall2 (lineOf ps) (filter visible conns) lines.
Proof.
  intros Hd.
  destruct (Exists_dec (dangling (length ps)) conns (dangling_dec (length ps)))
    as [E|E].
  - apply raised_iff_dangling in E. rewrite Hd in E. discriminate.
  - apply Forall_Exists_neg in E.
    destruct (proj1 (drawConnections_spec ps conns) E) as (lines' & Hd' & Hl).
    congruence.
Qed.

(** X4.  [animate] raises exactly when it has a canvas and a context and some
    connection that it would draw names an index outside the particle
    array.  The frame then ends at the first such connection: the
    particles have moved, the background and the lines of the connections
    before that one are painted (each between the updated positions of its
    particles, in the order of the list) and nothing else, no disc is
    drawn, no draw of [Math.random] is made, the connections are kept and
    no next frame is requested. *)
Theorem animate_raises (st : State) :
  (threw (animate entropy st) = true <->
   (exists canvas, canvasRef st = Some canvas /\ context2d canvas = true) /\
   Exists (dangling (length (particles st))) (connections st)) /\
  (forall (canvas : Canvas) (before later : list Connection)
          (bad : Connection),
      canvasRef st = Some canvas -> context2d canvas = true ->
      connections st = before ++ bad :: later ->
      Forall (fun c => ~ dangling (length (particles st)) c) before ->
      dangling (length (particles st)) bad ->
      let ps := map (updateParticle (widthOf canvas) (heightOf canvas)
                                    (mouse st)) (particles st) in
      exists lines,
        animate entropy st
        = mkFrame (mkState (canvasRef st) ps (connections st) (mouse st)
                           (draws st))
                  (FillRect #0 #0 (widthOf canvas) (heightOf canvas) :: lines)
                  true false /\
        Forall2 (lineOf ps) (filter visible before) lines).
Proof.
  split.
  - unfold animate. destruct (canvasRef st) as [canvas|] eqn:Hc.
    + destruct (context2d canvas) eqn:Hx; cbn [negb].
      * pose proof (raised_iff_dangling
                      (map (updateParticle (widthOf canvas) (heightOf canvas)
                                           (mouse st)) (particles st))
                      (connections st)) as Hn.
        rewrite length_map in Hn.
        destruct (drawConnections _ _) as [lines [|]]; cbn in *.
        -- split; [|reflexivity]. intros _. split; [now exists canvas|].
           now apply Hn.
        -- split; [discriminate|]. intros [_ E]. now apply Hn.
      * cbn. split; [discriminate|].
        intros [(canvas' & E & Hx') _]. congruence.
    + cbn. split; [discriminate|]. intros [(canvas' & E & _) _]. discriminate.
  - intros canvas before later bad Hc Hx Hcut Hb Hd ps.
    destruct (drawConnections_spec ps (connections st)) as [_ Hraise].
    unfold ps in Hraise at 1 2. rewrite length_map in Hraise.
    destruct (Hraise before later bad Hcut Hb Hd) as (lines & E & Hl).
    exists lines. split; [|exact Hl].
    unfold animate. rewrite Hc, Hx. cbn [negb]. fold ps. rewrite E.
    reflexivity.
Qed.

(** ** The loop keeps running *)

(** X5.  Once the effect has run on a canvas with a 2D context, every frame
    finds the connections within the particle array: no frame raises, each
    asks for the next, and the number of particles stays the one the effect
    created. *)
Theorem loop_never_stops (W H0 : N) (st : State) (canvas : Canvas) (k : nat) :
  canvasRef st = Some canvas -> context2d canvas = true ->
  exists st',
    steps entropy k (initialize entropy W H0 st) = Some st' /\
    length (particles st') = particleCount (mkCanvas W H0 true) /\
    Forall (inRange (length (particles st'))) (connections st').
Proof.
  intros Hc Hx.
  destruct (initialize_particles_eq entropy W H0 st Hc) as (Hp & Hk & Hc' & _).
  rewrite Hx in Hc', Hp.
  destruct (@steps_total _ _ entropy k (initialize entropy W H0 st) _ Hc' eq_refl)
    as (st' & Hs & _ & _ & Hps & Hr).
  { rewrite Hk. apply updateConnections_inRange. }
  exists st'. split; [exact Hs|]. split; [|exact Hr].
  rewrite Hps, length_map, Hp. unfold createParticles.
  apply (times_spec (fun _ => True)). intros; exact I.
Qed.

End Kept.

(** ** The particles and the draws *)

Section Draws.
Context {num : Type} `{JsNumber num}.
Variable entropy : nat -> num.
Local Open Scope js_scope.

Lemma times_layout (A : Type) (m : Rand A) (d : nat) :
  (forall n, snd (m n) = (n + d)%nat) ->
  forall count n,
    fst (times count m n)
    = map (fun k => fst (m (n + d * k)%nat)) (seq 0 count) /\
    snd (times count m n) = (n + d * count)%nat.
Proof.
  intros Hm. induction count as [|count IH]; intros n.
  - split; [reflexivity | cbn; lia].
  - rewrite times_S. pose proof (Hm n) as Hn.
    destruct (m n) as [a n1] eqn:Em. cbn [snd] in Hn. subst n1.
    destruct (IH (n + d)%nat) as [IHl IHn].
    destruct (times count m (n + d)%nat) as [rest n2]. cbn [fst snd] in *.
    split; [|lia].
    cbn [seq map]. rewrite Nat.mul_0_r, Nat.add_0_r, Em. cbn [fst]. f_equal.
    rewrite IHl, <- seq_shift, map_map. apply map_ext. intros k.
    f_equal. f_equal. lia.
Qed.

(** X8.  The [k]-th particle is made of the eight draws that start at
    [8 k]: position from the first two (scaled by the canvas), velocity
    from the next two, radius from the fifth, hue, saturation and
    lightness from the last three; its origin is its position.  The effect
    makes eight draws per particle and no other. *)
Theorem initialize_layout (W H0 : N) (st : State) (canvas : Canvas) :
  canvasRef st = Some canvas ->
  particles (initialize entropy W H0 st)
  = map (fun k => particleFromDraws entropy W H0 (draws st + 8 * k))
        (seq 0 (particleCount (mkCanvas W H0 (context2d canvas)))) /\
  draws (initialize entropy W H0 st)
  = (draws st + 8 * particleCount (mkCanvas W H0 (context2d canvas)))%nat.
Proof.
  intros Hc. unfold initialize. rewrite Hc. unfold createParticles.
  set (cv := mkCanvas W H0 (context2d canvas)).
  destruct (@times_layout _ (createParticle entropy (widthOf cv) (heightOf cv)) 8)
    with (count := particleCount cv) (n := draws st) as [Hl Hn].
  { intros n. rewrite createParticle_eq. cbn [snd]. lia. }
  destruct (times _ _ _) as [ps n]. cbn [fst snd particles draws] in *.
  split; [|exact Hn]. rewrite Hl. apply map_ext. intros k.
  rewrite createParticle_eq. reflexivity.
Qed.

End Draws.

(** ** Colours *)

Local Open Scope R_scope.

(** X9.  [getRandomColor] makes three draws and returns a colour with its
    hue between 220 and 280, its saturation between 70 and 100, its
    lightness between 50 and 70 (the upper ends included: a draw just
    below 1 reaches them once the arithmetic rounds) and the alpha 0.8; so
    every particle that the effect creates has such a colour. *)
Theorem getRandomColor_band (entropy : nat -> R) :
  unitDraws entropy ->
  (forall n, inBand (fst (getRandomColor entropy n)) /\
             snd (getRandomColor entropy n) = (3 + n)%nat) /\
  (forall (W H : N) (st : State) (canvas : Canvas),
      canvasRef st = Some canvas ->
      Forall (fun p => inBand (color p))
             (particles (initialize entropy W H st))).
Proof.
  intros He.
  assert (Hcol : forall n, inBand (fst (getRandomColor entropy n))).
  { intros n. pose proof (He n). pose proof (He (S n)). pose proof (He (S (S n))).
    unfold getRandomColor, bind, Math_random, ret, inBand.
    cbn [fst hue saturation lightness alpha]. js_real. repeat split; lra. }
  split; [intros n; split; [apply Hcol | reflexivity]|].
  intros W H st canvas Hc.
  destruct (initialize_particles_eq entropy W H st Hc) as (-> & _).
  unfold createParticles. apply times_spec. intros n.
  rewrite createParticle_eq. cbn [fst color]. apply (Hcol (5 + n)%nat).
Qed.

(** ** Painting a graph *)

Lemma sqrt_nonneg_pairDistance (pi pj : @Particle R) : 0 <= pairDistance pi pj.
Proof. unfold pairDistance. js_real. apply sqrt_pos. Qed.

Lemma lineOf_faint (ps : list (@Particle R)) (c : Connection) (op : DrawOp) :
  0 <= distance c < 150 -> lineOf ps c op -> faintLine op.
Proof.
  intros Hd (p1 & p2 & _ & _ & ->). do 5 eexists. split; [reflexivity|].
  js_real. lra.
Qed.

Lemma visible_near (c : @Connection R) :
  0 <= distance c < 150 -> visible c = true.
Proof. intros Hd. unfold visible. js_real. apply Rltb_true. lra. Qed.

Lemma updateConnections_near (ps : list (@Particle R)) :
  Forall (fun c => 0 <= distance c < 150) (updateConnections ps).
Proof.
  apply Forall_forall. intros c Hc.
  apply in_updateConnections in Hc as (i & j & _ & Hc).
  apply in_connectPair in Hc as (pi & pj & _ & _ & -> & Hd).
  cbn [distance]. split; [apply sqrt_nonneg_pairDistance|].
  revert Hd. js_real. unfold Rltb. destruct (Rlt_dec _ _); [trivial|discriminate].
Qed.

(** X2.  Every connection of a graph that [updateConnections] built is painted,
    also when the particles have moved since: the loop does not raise and
    strokes one line per connection, in the order of the graph, between
    the current positions of the two particles, with the stroke alpha
    [(1 - distance / 150) * 0.2] of the cached distance, which is in
    (0, 0.2]; the test [opacity > 0] never rejects a cached distance. *)
Theorem graph_fully_painted (ps ps' : list (@Particle R)) :
  length ps' = length ps ->
  exists lines,
    drawConnections ps' (updateConnections ps) = (lines, false) /\
    length lines = length (updateConnections ps) /\
    Forall2 (lineOf ps') (updateConnections ps) lines /\
    Forall faintLine lines.
Proof.
  intros Hlen.
  pose proof (updateConnections_near ps) as Hnear.
  assert (Hvis : filter visible (updateConnections ps) = updateConnections ps).
  { apply forallb_filter_id. apply forallb_forall. intros c Hc.
    apply visible_near. exact (proj1 (Forall_forall _ _) Hnear c Hc). }
  destruct (drawConnections_spec ps' (updateConnections ps)) as [Hok _].
  destruct Hok as (lines & Hd & Hl).
  { apply Forall_forall. intros c Hc [_ Hout].
    pose proof (proj1 (Forall_forall _ _) (updateConnections_inRange ps) c Hc)
      as [Hf Ht].
    rewrite Hlen in Hout. lia. }
  rewrite Hvis in Hl. exists lines. split; [exact Hd|].
  split; [symmetry; exact (Forall2_length Hl)|]. split; [exact Hl|].
  revert Hnear. clear Hd Hvis.
  induction Hl as [|c op conns lines' Hop _ IH]; intros Hnear; [constructor|].
  inversion Hnear as [|c' conns' Hc Hrest]; subst.
  constructor; [exact (lineOf_faint Hc Hop) | exact (IH Hrest)].
Qed.

(** ** The field while the mouse is still *)





(** ** Rest *)



(** ** The component from mount to unmount *)

Section Life.
Context {num : Type} `{JsNumber num}.
Variable entropy : nat -> num.

Lemma animate_threw_unscheduled (st : State) :
  threw (animate entropy st) = true -> scheduled (animate entropy st) = false.
Proof.
  unfold animate. destruct (canvasRef st) as [canvas|]; [|discriminate].
  destruct (context2d canvas); [|discriminate]. cbn.
  destruct (drawConnections _ _) as [lines [|]]; [reflexivity | discriminate].
Qed.

Lemma animateCallback_spec (c : @Component num) :
  sameHost c (animateCallback entropy c) /\
  refs (animateCallback entropy c) = after (animate entropy (refs c)) /\
  (frameRequests c = [] ->
   (scheduled (animate entropy (refs c)) = false ->
    frameRequests (animateCallback entropy c) = []) /\
   (frameRequests (animateCallback entropy c) = [] \/
    exists h, frameRequests (animateCallback entropy c) = [h] /\
              animationFrameRef (animateCallback entropy c) = Some h)).
Proof.
  unfold animateCallback, sameHost.
  destruct (scheduled (animate entropy (refs c))); cbn.
  - split; [repeat split|]. split; [reflexivity|].
    intros Hq. rewrite Hq. split; [discriminate|].
    right. now exists (nextHandle c).
  - split; [repeat split|]. split; [reflexivity|].
    intros Hq. rewrite Hq. auto.
Qed.

Lemma repaint_spec (c : @Component num) :
  tidy c ->
  tidy (repaint entropy c) /\ sameHost c (repaint entropy c) /\
  (cleanupPending c = false -> refs (repaint entropy c) = refs c).
Proof.
  intros [[Hq|(h & Hq & Hr)] Hdead]; unfold repaint; rewrite Hq;
    cbn [runCallbacks].
  - split; [split|split].
    + left. reflexivity.
    + cbn. intros Hd. split; [reflexivity | exact (proj2 (Hdead Hd))].
    + unfold sameHost. cbn. auto 7.
    + intros _. reflexivity.
  - set (c0 := mkComponent _ _ _ _ _ _ _ _ _ _).
    destruct (animateCallback_spec c0) as (Hsame & _ & Hreq).
    destruct (Hreq eq_refl) as [_ Hone].
    assert (Hlive : cleanupPending c = true).
    { destruct (cleanupPending c) eqn:E; [reflexivity|].
      destruct (Hdead eq_refl) as [E' _]. rewrite Hq in E'. discriminate. }
    pose proof Hsame as (_ & _ & _ & _ & Hs5 & _). cbn in Hs5.
    split; [split|split].
    + exact Hone.
    + intros E. rewrite Hs5, Hlive in E. discriminate.
    + exact Hsame.
    + intros E. rewrite Hlive in E. discriminate.
Qed.

Lemma cleanup_spec (c : @Component num) :
  tidy c ->
  tidy (cleanup c) /\ cleanupPending (cleanup c) = false /\
  refs (cleanup c) = refs c /\ showContent (cleanup c) = showContent c /\
  timeoutPending (cleanup c) = timeoutPending c.
Proof.
  intros [Hone _].
  assert (Hq : frameRequests (cleanup c) = []).
  { unfold cleanup, cancelAnimationFrame.
    destruct Hone as [Hq|(h & Hq & Hr)].
    - destruct (animationFrameRef c); cbn; rewrite Hq; reflexivity.
    - rewrite Hr. cbn. rewrite Hq. cbn.
      destruct (Nat.eq_dec h h); [reflexivity | contradiction]. }
  split; [split|].
  - left. exact Hq.
  - intros _. split; [exact Hq|].
    unfold cleanup. reflexivity.
  - unfold cleanup, cancelAnimationFrame.
    destruct (animationFrameRef c); cbn; auto.
Qed.

Lemma setShowContent_spec (c : @Component num) :
  showContent (setShowContent c)
  = (if unmounted c then showContent c else true) /\
  refs (setShowContent c) = refs c /\
  frameRequests (setShowContent c) = frameRequests c /\
  animationFrameRef (setShowContent c) = animationFrameRef c /\
  mousemoveListener (setShowContent c) = mousemoveListener c /\
  timeoutPending (setShowContent c) = timeoutPending c /\
  cleanupPending (setShowContent c) = cleanupPending c /\
  unmounted (setShowContent c) = unmounted c.
Proof.
  unfold setShowContent. destruct (unmounted c) eqn:E; cbn;
    repeat split; trivial.
Qed.

Lemma unmount_spec (c : @Component num) :
  tidy c ->
  tidy (unmount c) /\ cleanupPending (unmount c) = false /\
  unmounted (unmount c) = true /\
  refs (unmount c) = refs c /\ showContent (unmount c) = showContent c /\
  timeoutPending (unmount c) = timeoutPending c.
Proof.
  intros Ht. unfold unmount.
  set (c' := if cleanupPending c then cleanup c else c).
  assert (Hc' : tidy c' /\ cleanupPending c' = false /\ refs c' = refs c /\
                showContent c' = showContent c /\
                timeoutPending c' = timeoutPending c).
  { unfold c'. destruct (cleanupPending c) eqn:E; [now apply cleanup_spec|].
    auto. }
  destruct Hc' as ([Hone Hdead] & Hd & Hr & Hs & Hp).
  unfold tidy.
  cbn [refs animationFrameRef showContent frameRequests mousemoveListener
       timeoutPending cleanupPending unmounted].
  repeat split; trivial; now apply Hdead.
Qed.

Lemma handleEvent_tidy (c : @Component num) (e : Event) :
  tidy c -> tidy (handleEvent entropy c e).
Proof.
  intros Ht. destruct e as [|mx my| |]; cbn [handleEvent].
  - now apply repaint_spec.
  - destruct (mousemoveListener c) eqn:E; [|exact Ht].
    destruct Ht as [Hone Hdead]. split; [exact Hone|]. cbn. intros Hd.
    destruct (Hdead Hd) as [_ E']. congruence.
  - destruct (timeoutPending c); [|exact Ht].
    destruct Ht as [Hone Hdead].
    match goal with |- tidy (setShowContent ?c0) =>
      destruct (setShowContent_spec c0) as (_ & _ & Hq & Hr & Hl & _ & Hk & _)
    end.
    unfold tidy. rewrite Hq, Hr, Hl, Hk. cbn. now split.
  - now apply unmount_spec.
Qed.

Lemma run_tidy (es : list Event) : forall c, tidy c -> tidy (run entropy es c).
Proof.
  induction es as [|e es IH]; intros c Ht; [exact Ht|].
  apply IH. now apply handleEvent_tidy.
Qed.

Lemma initialize_then_animate (W H0 : N) (st : State) :
  threw (animate entropy (initialize entropy W H0 st)) = false.
Proof.
  unfold initialize. destruct (canvasRef st) as [canvas|] eqn:Hc.
  - destruct (createParticles _ _ _) as [ps n].
    unfold animate. cbn [canvasRef].
    destruct (negb _); [reflexivity|]. cbn [particles connections mouse].
    destruct (@drawConnections_inRange _ _
                (map (updateParticle (widthOf (mkCanvas W H0 (context2d canvas)))
                                     (heightOf (mkCanvas W H0 (context2d canvas)))
                                     (mouse st)) ps)
                (updateConnections ps)) as (lines & ->).
    + rewrite length_map. apply updateConnections_inRange.
    + reflexivity.
  - unfold animate. now rewrite Hc.
Qed.

Lemma mountEffect_spec (W H0 : N) (canvas : option Canvas) :
  tidy (mountEffect entropy W H0 (created canvas)) /\
  showContent (mountEffect entropy W H0 (created canvas)) = false /\
  timeoutPending (mountEffect entropy W H0 (created canvas))
  = (match canvas with Some _ => true | None => false end) /\
  cleanupPending (mountEffect entropy W H0 (created canvas))
  = (match canvas with Some _ => true | None => false end) /\
  unmounted (mountEffect entropy W H0 (created canvas)) = false.
Proof.
  unfold mountEffect, created, mounted. cbn [refs canvasRef].
  destruct canvas as [cv|].
  - set (c1 := setRefs _ _).
    assert (Hr : threw (animate entropy (refs c1)) = false)
      by apply initialize_then_animate.
    rewrite Hr.
    destruct (animateCallback_spec c1) as ((Hs & _ & _ & _ & _ & Hu) & _ & Hreq).
    destruct (Hreq eq_refl) as [_ Hone].
    split; [split; [exact Hone | discriminate]|].
    split; [exact Hs|]. split; [reflexivity|]. split; [reflexivity|].
    exact Hu.
  - repeat split; cbn; auto.
Qed.

(** X14.  From the moment the effect has run, whatever happens (repaints, mouse
    moves, the timer, the unmount, in any order), the host has at most one
    frame request waiting, and it is the one whose handle
    [animationFrameRef] holds. *)
Theorem one_frame_request (W H0 : N) (canvas : option Canvas)
        (events : list Event) :
  frameRequests (run entropy events (mountEffect entropy W H0 (created canvas)))
  = [] \/
  exists h,
    frameRequests (run entropy events (mountEffect entropy W H0 (created canvas)))
    = [h] /\
    animationFrameRef (run entropy events (mountEffect entropy W H0 (created canvas)))
    = Some h.
Proof.
  apply (run_tidy events). apply mountEffect_spec.
Qed.

Lemma dead_stays (es : list Event) : forall c,
  tidy c -> cleanupPending c = false ->
  frameRequests (run entropy es c) = [] /\ refs (run entropy es c) = refs c.
Proof.
  induction es as [|e es IH]; intros c Ht Hd.
  - split; [now destruct Ht as [_ Hdead]; destruct (Hdead Hd) | reflexivity].
  - cbn [run fold_left]. fold (run entropy es (handleEvent entropy c e)).
    assert (Hstep : cleanupPending (handleEvent entropy c e) = false /\
                    refs (handleEvent entropy c e) = refs c).
    { destruct Ht as [Hone Hdead]. destruct (Hdead Hd) as [Hq Hl].
      destruct e as [|mx my| |]; cbn [handleEvent].
      - destruct (repaint_spec (conj Hone Hdead)) as (_ & Hs & Hrefs).
        destruct Hs as (_ & _ & _ & _ & Hs5 & _). split; [congruence | auto].
      - rewrite Hl. auto.
      - destruct (timeoutPending c); [|auto].
        match goal with |- context [setShowContent ?c0] =>
          destruct (setShowContent_spec c0) as (_ & Hr & _ & _ & _ & _ & Hk & _)
        end.
        rewrite Hr, Hk. auto.
      - destruct (unmount_spec (conj Hone Hdead)) as (_ & ? & _ & ? & _). auto. }
    destruct Hstep as [Hd' Hrefs'].
    destruct (IH _ (handleEvent_tidy e Ht) Hd') as [Hq' Hr'].
    split; [exact Hq' | congruence].
Qed.

(** X15.  After the unmount, no frame request waits and none is made again:
    whatever events still arrive (repaints, mouse moves, the timer), the
    particles, the connections and the mouse record stay as the unmount
    found them. *)
Theorem unmount_stops_frames (W H0 : N) (canvas : option Canvas)
        (before later : list Event) :
  frameRequests
    (run entropy (before ++ Unmount :: later)
         (mountEffect entropy W H0 (created canvas))) = [] /\
  refs (run entropy (before ++ Unmount :: later)
            (mountEffect entropy W H0 (created canvas)))
  = refs (run entropy before (mountEffect entropy W H0 (created canvas))).
Proof.
  unfold run. rewrite fold_left_app. cbn [fold_left].
  fold (run entropy before (mountEffect entropy W H0 (created canvas))).
  set (c := run entropy before (mountEffect entropy W H0 (created canvas))).
  assert (Ht : tidy c) by (apply run_tidy, mountEffect_spec).
  fold (run entropy later (handleEvent entropy c Unmount)).
  assert (Hu : tidy (handleEvent entropy c Unmount) /\
               cleanupPending (handleEvent entropy c Unmount) = false /\
               refs (handleEvent entropy c Unmount) = refs c).
  { cbn [handleEvent].
    destruct (unmount_spec Ht) as (? & ? & _ & ? & _). auto. }
  destruct Hu as (Ht' & Hd' & Hr').
  destruct (dead_stays later Ht' Hd') as [Hq Hr]. split; [exact Hq | congruence].
Qed.

Lemma shown_stays (es : list Event) : forall c,
  tidy c -> showContent c = true -> showContent (run entropy es c) = true.
Proof.
  induction es as [|e es IH]; intros c Ht Hs; [exact Hs|].
  apply IH; [now apply handleEvent_tidy|].
  destruct e as [|mx my| |]; cbn [handleEvent].
  - destruct (repaint_spec Ht) as (_ & (Hs1 & _) & _). congruence.
  - destruct (mousemoveListener c); exact Hs.
  - destruct (timeoutPending c); [|exact Hs].
    match goal with |- context [setShowContent ?c0] =>
      destruct (setShowContent_spec c0) as (-> & _)
    end.
    cbn. now destruct (unmounted c).
  - destruct (unmount_spec Ht) as (_ & _ & _ & _ & Hs' & _). congruence.
Qed.

(** Whether the card ends up shown is decided by the timer alone: it must
    have been registered, and fire while the component is mounted. *)
Lemma timer_decides (es : list Event) : forall c,
  tidy c -> showContent c = false ->
  showContent (run entropy es c)
  = (if timeoutPending c && negb (unmounted c)
     then existsb isTimeout (untilUnmount es) else false).
Proof.
  induction es as [|e es IH]; intros c Ht Hs.
  - cbn. rewrite Hs. now destruct (timeoutPending c && negb (unmounted c)).
  - cbn [run fold_left]. fold (run entropy es (handleEvent entropy c e)).
    pose proof (handleEvent_tidy e Ht) as Ht'.
    destruct e as [|mx my| |]; cbn [untilUnmount isUnmount existsb isTimeout orb].
    + destruct (repaint_spec Ht) as (_ & (Hs1 & _ & _ & Hs4 & _ & Hs6) & _).
      cbn [handleEvent] in *. rewrite IH by (trivial; congruence).
      now rewrite Hs4, Hs6.
    + cbn [handleEvent] in *. destruct (mousemoveListener c); now rewrite IH.
    + cbn [handleEvent] in *. destruct (timeoutPending c) eqn:E.
      * match type of Ht' with tidy (setShowContent ?c0) =>
          destruct (setShowContent_spec c0)
            as (Hshow & _ & _ & _ & _ & Hp & _ & Hu)
        end.
        cbn in Hshow, Hp, Hu. destruct (unmounted c) eqn:E'; cbn [andb negb].
        -- rewrite IH; [|exact Ht' | congruence]. now rewrite Hp.
        -- apply shown_stays; [exact Ht' | exact Hshow].
      * rewrite IH by trivial. now rewrite E.
    + cbn [handleEvent] in *.
      destruct (unmount_spec Ht) as (_ & _ & Hu & _ & Hs' & _).
      rewrite IH by (trivial; congruence). rewrite Hu, andb_false_r.
      now destruct (timeoutPending c && negb (unmounted c)).
Qed.

(** X16.  The card is shown exactly when the effect found a canvas and the
    timer has fired before the unmount: without a canvas the effect never
    registers the timer, a timer that fires after the unmount updates
    nothing, and no repaint and no mouse move shows or hides the card. *)
Theorem card_shows_after_timeout (W H0 : N) (canvas : option Canvas)
        (events : list Event) :
  showContent (run entropy events (mountEffect entropy W H0 (created canvas)))
  = (match canvas with
     | Some _ => existsb isTimeout (untilUnmount events)
     | None => false
     end).
Proof.
  destruct (mountEffect_spec W H0 canvas) as (Ht & Hs & Hp & _ & Hu).
  rewrite (timer_decides events Ht Hs), Hp, Hu. now destruct canvas.
Qed.

End Life.

(** ** The mouse, the context and the order of painting *)

Section More.
Context {num : Type} `{JsNumber num}.
Variable entropy : nat -> num.

Lemma animate_keeps_mouse (st : State) :
  mouse (after (animate entropy st)) = mouse st.
Proof.
  unfold animate. destruct (canvasRef st) as [canvas|]; [|reflexivity].
  destruct (context2d canvas); [|reflexivity]. cbn.
  destruct (drawConnections _ _) as [lines [|]]; reflexivity.
Qed.

Lemma runCallbacks_mouse (hs : list nat) : forall c : @Component num,
  mouse (refs (runCallbacks entropy hs c)) = mouse (refs c).
Proof.
  induction hs as [|h hs IH]; intros c; [reflexivity|].
  cbn [runCallbacks]. rewrite IH.
  destruct (animateCallback_spec entropy c) as (_ & -> & _).
  apply animate_keeps_mouse.
Qed.

Lemma moved_stays (es : list Event) : forall c : @Component num,
  moved (mouse (refs c)) = true ->
  moved (mouse (refs (run entropy es c))) = true.
Proof.
  induction es as [|e es IH]; intros c Hm; [exact Hm|].
  apply IH. destruct e as [|mx my| |]; cbn [handleEvent].
  - unfold repaint. now rewrite runCallbacks_mouse.
  - destruct (mousemoveListener c); [reflexivity | exact Hm].
  - destruct (timeoutPending c); [|exact Hm].
    unfold setShowContent. cbn. destruct (unmounted c); exact Hm.
  - unfold unmount, cleanup, cancelAnimationFrame. cbn.
    destruct (cleanupPending c); [|exact Hm].
    destruct (animationFrameRef c); exact Hm.
Qed.

Lemma listener_stays (es : list Event) : forall c : @Component num,
  tidy c -> mousemoveListener c = true -> existsb isUnmount es = false ->
  mousemoveListener (run entropy es c) = true.
Proof.
  induction es as [|e es IH]; intros c Ht Hl Hu; [exact Hl|].
  cbn [existsb] in Hu. apply orb_false_iff in Hu as [He Hu].
  apply IH; [now apply handleEvent_tidy | | exact Hu].
  destruct e as [|mx my| |]; cbn [handleEvent]; try discriminate.
  - destruct (repaint_spec entropy Ht) as (_ & (_ & Hs2 & _) & _). congruence.
  - now rewrite Hl.
  - destruct (timeoutPending c); [|exact Hl].
    unfold setShowContent. cbn. destruct (unmounted c); exact Hl.
Qed.

(** X17.  A mouse move that arrives before the unmount marks the mouse as moved
    for good: no frame, no later event and no unmount clears the mark. *)
Theorem moved_is_permanent (W H0 : N) (canvas : Canvas)
        (before later : list Event) (clientX clientY : num) :
  existsb isUnmount before = false ->
  moved (mouse (refs (run entropy (before ++ MouseMove clientX clientY :: later)
                          (mountEffect entropy W H0 (created (Some canvas))))))
  = true.
Proof.
  intros Hu. unfold run. rewrite fold_left_app. cbn [fold_left].
  fold (run entropy before (mountEffect entropy W H0 (created (Some canvas)))).
  set (c := run entropy before (mountEffect entropy W H0 (created (Some canvas)))).
  fold (run entropy later (handleEvent entropy c (MouseMove clientX clientY))).
  apply moved_stays. cbn [handleEvent].
  assert (Hl : mousemoveListener c = true).
  { apply listener_stays; [apply mountEffect_spec | | exact Hu].
    unfold mountEffect, setRefs, created, mounted. cbn [refs canvasRef].
    rewrite initialize_then_animate. reflexivity. }
  rewrite Hl. reflexivity.
Qed.

Lemma idle_queue (es : list Event) : forall c : @Component num,
  frameRequests c = [] ->
  frameRequests (run entropy es c) = [] /\
  particles (refs (run entropy es c)) = particles (refs c) /\
  connections (refs (run entropy es c)) = connections (refs c).
Proof.
  induction es as [|e es IH]; intros c Hq; [auto|].
  cbn [run fold_left]. fold (run entropy es (handleEvent entropy c e)).
  assert (Hstep : frameRequests (handleEvent entropy c e) = [] /\
                  particles (refs (handleEvent entropy c e)) = particles (refs c) /\
                  connections (refs (handleEvent entropy c e))
                  = connections (refs c)).
  { destruct e as [|mx my| |]; cbn [handleEvent].
    - unfold repaint. rewrite Hq. cbn. auto.
    - destruct (mousemoveListener c); cbn; auto.
    - destruct (timeoutPending c); [|auto].
      unfold setShowContent. cbn. destruct (unmounted c); cbn; auto.
    - unfold unmount, cleanup, cancelAnimationFrame.
      destruct (cleanupPending c); [|cbn; auto].
      destruct (animationFrameRef c); cbn; rewrite Hq; cbn; auto. }
  destruct Hstep as (Hq' & Hp' & Hk').
  destruct (IH _ Hq') as (? & ? & ?). repeat split; congruence.
Qed.

(** X18.  On a canvas that gives no 2D context the effect still creates the
    particles and their graph, but no frame is ever requested: whatever
    events arrive, the particles and the connections stay as created. *)
Theorem no_context_no_frames (W H0 : N) (canvas : Canvas)
        (events : list Event) :
  context2d canvas = false ->
  frameRequests (run entropy events
                     (mountEffect entropy W H0 (created (Some canvas)))) = [] /\
  particles (refs (run entropy events
                       (mountEffect entropy W H0 (created (Some canvas)))))
  = particles (initialize entropy W H0 (mounted (Some canvas))) /\
  connections (refs (run entropy events
                         (mountEffect entropy W H0 (created (Some canvas)))))
  = updateConnections (particles (initialize entropy W H0 (mounted (Some canvas)))).
Proof.
  intros Hx.
  assert (Hm : mountEffect entropy W H0 (created (Some canvas))
               = mkComponent (initialize entropy W H0 (mounted (Some canvas)))
                             None false [] 1 true true true true false).
  { unfold mountEffect, setRefs, created, mounted. cbn [refs canvasRef].
    rewrite initialize_then_animate.
    unfold animateCallback, setRefs. cbn [refs].
    change (mkState (Some canvas) [] [] (mkMouse #0%js #0%js false) 0)
      with (mounted (num := num) (Some canvas)).
    destruct (initialize_particles_eq entropy W H0 (mounted (Some canvas))
                                      eq_refl) as (_ & _ & Hc & _).
    unfold animate. rewrite Hc. cbn [context2d]. rewrite Hx. cbn. reflexivity. }
  rewrite Hm.
  destruct (@idle_queue events
              (mkComponent (initialize entropy W H0 (mounted (Some canvas)))
                           None false [] 1 true true true true false) eq_refl)
    as (Hq & Hp & Hk).
  cbn [refs] in Hp, Hk. split; [exact Hq|]. split; [exact Hp|].
  rewrite Hk.
  now destruct (initialize_particles_eq entropy W H0 (mounted (Some canvas))
                                        eq_refl) as (_ & -> & _).
Qed.

Local Open Scope js_scope.

Lemma lineOf_strokes (ps : list Particle) (conns : list Connection)
      (lines : list DrawOp) :
  Forall2 (lineOf ps) conns lines -> strokes lines = lines.
Proof.
  induction 1 as [|c op conns lines (p1 & p2 & _ & _ & ->) _ IH];
    [reflexivity|].
  cbn [strokes filter isStroke]. fold (strokes lines). now rewrite IH.
Qed.

(** X3.  A frame that runs to its end has moved every particle and painted, in
    this order: the background; for each connection whose cached distance
    gives a positive opacity, in the order of the list, the line between
    the updated positions of its two particles, with the stroke alpha
    [(1 - distance / 150) * 0.2]; for each particle, in the order of the
    array, the disc of its radius and colour at its updated position. *)
Theorem paint_order (st : State) :
  scheduled (animate entropy st) = true ->
  exists canvas lines,
    canvasRef st = Some canvas /\
    particles (after (animate entropy st))
    = map (updateParticle (widthOf canvas) (heightOf canvas) (mouse st))
          (particles st) /\
    painted (animate entropy st)
    = FillRect #0 #0 (widthOf canvas) (heightOf canvas)
        :: lines
        ++ map (fun p : Particle => Disc (x p) (y p) (radius p) (color p))
               (particles (after (animate entropy st))) /\
    Forall2 (lineOf (particles (after (animate entropy st))))
            (filter visible (connections st)) lines /\
    strokes lines = lines /\
    length lines = length (filter (visible (num := num)) (connections st)).
Proof.
  unfold animate. destruct (canvasRef st) as [canvas|]; [|discriminate].
  destruct (context2d canvas); [|discriminate]. cbn [negb].
  destruct (drawConnections _ _) as [lines [|]] eqn:Hd; [discriminate|].
  cbn. intros _. exists canvas, lines. split; [reflexivity|].
  split; [reflexivity|]. split; [reflexivity|].
  pose proof (drawConnections_done _ _ Hd) as Hl.
  split; [exact Hl|]. split; [exact (lineOf_strokes Hl)|].
  symmetry. exact (Forall2_length Hl).
Qed.

End More.

(** ** The further results at concrete inputs *)

Lemma loop_never_stops_witness :
  canvasRef (mounted (num := R) (Some blankCanvas)) = Some blankCanvas /\
  context2d blankCanvas = true /\
  exists st',
    steps zeros 1000 (initialize zeros 800 600 (mounted (Some blankCanvas)))
    = Some st' /\
    length (particles st') = particleCount (num := R) (mkCanvas 800 600 true) /\
    Forall (inRange (length (particles st'))) (connections st').
Proof.
  split; [reflexivity|]. split; [reflexivity|].
  apply (@loop_never_stops R R_number zeros 800 600
                           (mounted (Some blankCanvas)) blankCanvas 1000
                           eq_refl eq_refl).
Defined.

Lemma initialize_layout_witness :
  canvasRef (mounted (num := R) (Some blankCanvas)) = Some blankCanvas /\
  particles (initialize zeros 800 600 (mounted (Some blankCanvas)))
  = map (fun k => particleFromDraws zeros 800 600
                    (draws (mounted (num := R) (Some blankCanvas)) + 8 * k))
        (seq 0 (particleCount (num := R)
                              (mkCanvas 800 600 (context2d blankCanvas)))) /\
  draws (initialize zeros 800 600 (mounted (Some blankCanvas)))
  = (draws (mounted (num := R) (Some blankCanvas))
     + 8 * particleCount (num := R) (mkCanvas 800 600 (context2d blankCanvas)))%nat.
Proof.
  split; [reflexivity|].
  apply (@initialize_layout R R_number zeros 800 600
                            (mounted (Some blankCanvas)) blankCanvas eq_refl).
Defined.

Lemma getRandomColor_band_witness :
  unitDraws zeros /\
  (forall n, inBand (fst (getRandomColor zeros n)) /\
             snd (getRandomColor zeros n) = (3 + n)%nat) /\
  (forall (W H : N) (st : State) (canvas : Canvas),
      canvasRef st = Some canvas ->
      Forall (fun p => inBand (color p))
             (particles (initialize zeros W H st))).
Proof.
  split; [exact unitDraws_zeros|].
  apply (@getRandomColor_band zeros unitDraws_zeros).
Defined.

(** The two particles of [linked] are 100 apart: their graph has one
    connection. *)
Lemma linked_graph :
  updateConnections (particles (linked (num := R)))
  = [mkConnection 0 1
                  (pairDistance (particleAt 0 100 (1 / 10) 0 0 100)
                                (particleAt 100 100 (IZR (-1) / 10) 0 100 100))].
Proof.
  unfold linked. cbn [particles]. js_real. rewrite updateConnections_two.
  js_real. rewrite Rltb_true; [reflexivity|].
  unfold pairDistance, particleAt. cbn [x y]. js_real.
  apply sqrt_upper; lra.
Qed.

Lemma graph_fully_painted_witness :
  length (map (updateParticle 800 600 (mouse linked)) (particles linked))
  = length (particles (linked (num := R))) /\
  length (updateConnections (particles (linked (num := R)))) = 1%nat /\
  exists lines,
    drawConnections
      (map (updateParticle 800 600 (mouse linked)) (particles linked))
      (updateConnections (particles (linked (num := R))))
    = (lines, false) /\
    length lines
    = length (updateConnections (particles (linked (num := R)))) /\
    Forall2 (lineOf (map (updateParticle 800 600 (mouse linked))
                         (particles linked)))
            (updateConnections (particles (linked (num := R)))) lines /\
    Forall faintLine lines.
Proof.
  split; [reflexivity|]. split; [now rewrite linked_graph|].
  apply (@graph_fully_painted
           (particles linked)
           (map (updateParticle 800 600 (mouse linked)) (particles linked))
           eq_refl).
Defined.




Lemma moved_is_permanent_witness :
  existsb isUnmount [Repaint (num := R)] = false /\
  moved (mouse (refs (run zeros
                          ([Repaint] ++ MouseMove 10 20
                             :: [Repaint; Unmount; Repaint; Timeout])
                          (mountEffect zeros 800 600 (created (Some viewport))))))
  = true.
Proof.
  split; [reflexivity|].
  apply (@moved_is_permanent R R_number zeros 800 600 viewport [Repaint]
                             [Repaint; Unmount; Repaint; Timeout] 10 20 eq_refl).
Defined.

Lemma no_context_no_frames_witness :
  context2d blindCanvas = false /\
  frameRequests (run zeros [Repaint; MouseMove 10 20; Repaint]
                     (mountEffect zeros 800 600 (created (Some blindCanvas))))
  = [] /\
  particles (refs (run zeros [Repaint; MouseMove 10 20; Repaint]
                       (mountEffect zeros 800 600 (created (Some blindCanvas)))))
  = particles (initialize zeros 800 600 (mounted (Some blindCanvas))) /\
  connections (refs (run zeros [Repaint; MouseMove 10 20; Repaint]
                         (mountEffect zeros 800 600 (created (Some blindCanvas)))))
  = updateConnections
      (particles (initialize zeros 800 600 (mounted (Some blindCanvas)))).
Proof.
  split; [reflexivity|].
  apply (@no_context_no_frames R R_number zeros 800 600 blindCanvas
                               [Repaint; MouseMove 10 20; Repaint] eq_refl).
Defined.

(** The cached connection of [linked] is visible, and the frame on
    [linked] runs to its end. *)
Lemma linked_visible :
  filter visible (connections (linked (num := R))) = [mkConnection 0 1 100].
Proof.
  unfold linked. cbn [connections filter]. unfold visible. cbn [distance].
  js_real. rewrite Rltb_true by lra. reflexivity.
Qed.

Lemma linked_scheduled : scheduled (animate zeros (linked (num := R))) = true.
Proof.
  destruct (@drawConnections_inRange R _
              (map (updateParticle (widthOf viewport) (heightOf viewport)
                                   (mouse linked)) (particles linked))
              (connections linked)) as (lines & Hd).
  { repeat constructor. }
  rewrite (@animate_drawn _ _ zeros linked viewport lines eq_refl eq_refl Hd).
  reflexivity.
Qed.

Lemma paint_order_witness :
  scheduled (animate zeros (linked (num := R))) = true /\
  filter visible (connections (linked (num := R))) = [mkConnection 0 1 100] /\
  exists canvas lines,
    canvasRef (linked (num := R)) = Some canvas /\
    particles (after (animate zeros linked))
    = map (updateParticle (widthOf canvas) (heightOf canvas) (mouse linked))
          (particles linked) /\
    painted (animate zeros linked)
    = FillRect 0 0 (widthOf canvas) (heightOf canvas)
        :: lines
        ++ map (fun p : Particle => Disc (x p) (y p) (radius p) (color p))
               (particles (after (animate zeros linked))) /\
    Forall2 (lineOf (particles (after (animate zeros linked))))
            (filter visible (connections linked)) lines /\
    strokes lines = lines /\
    length lines = length (filter (visible (num := R)) (connections linked)).
Proof.
  split; [exact linked_scheduled|]. split; [exact linked_visible|].
  apply (@paint_order R R_number zeros linked linked_scheduled).
Defined.

(** On [torn] the second connection names the particle 5 of 2: the frame
    raises there, with the line of the first connection stroked. *)
Lemma torn_cut :
  Forall (fun c => ~ dangling (length (particles (torn (num := R)))) c)
         [mkConnection 0 1 100] /\
  dangling (length (particles (torn (num := R)))) (mkConnection 0 5 100) /\
  filter visible [mkConnection (num := R) 0 1 100] = [mkConnection 0 1 100].
Proof.
  split; [|split].
  - constructor; [|constructor]. intros [_ [Hf|Hf]]; cbn in Hf; lia.
  - split; [|right; cbn; lia]. unfold visible. cbn [distance]. js_real.
    apply Rltb_true. lra.
  - cbn [filter]. unfold visible. cbn [distance]. js_real.
    rewrite Rltb_true by lra. reflexivity.
Qed.

Lemma animate_raises_witness :
  filter visible [mkConnection (num := R) 0 1 100] = [mkConnection 0 1 100] /\
  exists lines,
    animate zeros (torn (num := R))
    = mkFrame (mkState (canvasRef torn)
                       (map (updateParticle (widthOf viewport)
                                            (heightOf viewport) (mouse torn))
                            (particles torn))
                       (connections torn) (mouse torn) (draws torn))
              (FillRect 0 0 (widthOf viewport) (heightOf viewport) :: lines)
              true false /\
    Forall2 (lineOf (map (updateParticle (widthOf viewport)
                                         (heightOf viewport) (mouse torn))
                         (particles torn)))
            (filter visible [mkConnection 0 1 100]) lines.
Proof.
  split; [exact (proj2 (proj2 torn_cut))|].
  exact (proj2 (animate_raises zeros torn) viewport
               [mkConnection 0 1 100] [mkConnection 0 1 50]
               (mkConnection 0 5 100) eq_refl eq_refl eq_refl
               (proj1 torn_cut) (proj1 (proj2 torn_cut))).
Defined.

(** ** The further results in binary64 *)

(** X4: the frame on [torn] raises after the background and one line. *)
Example animate_raises_binary64 :
  threw (@animate _ arith64 (@zeros _ arith64) (@torn _ arith64)) = true /\
  scheduled (@animate _ arith64 (@zeros _ arith64) (@torn _ arith64)) = false /\
  map isStroke (painted (@animate _ arith64 (@zeros _ arith64) (@torn _ arith64)))
  = [false; true].
Proof. vm_compute. repeat split. Qed.

(** X3: the frame on [linked] paints the background, one line and two
    discs. *)
Example paint_order_binary64 :
  scheduled (@animate _ arith64 (@zeros _ arith64) (@linked _ arith64)) = true /\
  map isStroke (painted (@animate _ arith64 (@zeros _ arith64) (@linked _ arith64)))
  = [false; true; false; false].
Proof. vm_compute. repeat split. Qed.

(** X9: draws just below 1 reach the upper ends of the three bands. *)
Example getRandomColor_binary64 :
  let almost1 := @sub _ arith64 (@num_of_Z _ arith64 1)
                      (@div _ arith64 (@num_of_Z _ arith64 1)
                            (@num_of_Z _ arith64 (2 ^ 53))) in
  @ltb _ arith64 almost1 (@num_of_Z _ arith64 1) = true /\
  fst (@getRandomColor _ arith64 (fun _ => almost1) 0%nat)
  = hsla (@num_of_Z _ arith64 280) (@num_of_Z _ arith64 100)
         (@num_of_Z _ arith64 70) (@dec _ arith64 8 1).
Proof. vm_compute. split; reflexivity. Qed.
